(** * ReAct-Wiki-Agent: a shallow embedding of the control loop and its tools

    The development follows the Python sources:
    - [src/workflow.py]: marker parsing, the termination policy, the two
      graph nodes, the routing function and the top-level runner;
    - [src/tools.py]: the tool classes and the registry;
    - [src/google_search.py]: the search gateway.

    Python text is modelled by [string]; a character stands for the code
    point of the same number (0..255), so every function on text below is the
    Python one restricted to such texts.  Everything the program obtains from
    outside (the model's completions, the clock, [eval], dateutil, HTTP) is
    an oracle of the environment record [env], and each call is logged. *)

From Stdlib Require Import ZArith String Ascii List Bool Lia DecimalString.
From stdpp Require Import base option list strings gmap.

Local Open Scope string_scope.

(** ** Python text primitives *)

Module PyStr.

Definition code (c : ascii) : nat := nat_of_ascii c.

Definition between (lo hi n : nat) : bool := Nat.leb lo n && Nat.leb n hi.

(** [str.isspace] on one character: TAB..CR, FS..US, SPACE, NEL, NBSP. *)
Definition is_space (c : ascii) : bool :=
  between 9 13 (code c) || between 28 32 (code c)
  || Nat.eqb (code c) 133 || Nat.eqb (code c) 160.

Definition is_digit (c : ascii) : bool := between 48 57 (code c).

Definition nl_char : ascii := "010"%char.
Definition nl : string := String nl_char "".
Definition squote : string := "'".
Definition dquote : string := String "034"%char "".

Definition len (s : string) : nat := String.length s.

(** [s[n:]] and [s[:n]] for a non-negative [n]. *)
Fixpoint skip (n : nat) (s : string) : string :=
  match n, s with
  | S n', String _ s' => skip n' s'
  | _, _ => s
  end.

Fixpoint upto (n : nat) (s : string) : string :=
  match n, s with
  | S n', String c s' => String c (upto n' s')
  | _, _ => ""
  end.

(** [s[i:j]] for non-negative [i] and [j]. *)
Definition slice (i j : nat) (s : string) : string := upto (j - i) (skip i s).

Definition startswith (s p : string) : bool := String.prefix p s.

Definition endswith (s p : string) : bool :=
  Nat.leb (len p) (len s) && String.eqb (skip (len s - len p) s) p.

(** [s.find(sub)]: the lowest index, [None] for Python's [-1]. *)
Fixpoint find (sub s : string) {struct s} : option nat :=
  if String.prefix sub s then Some 0
  else match s with
       | "" => None
       | String _ s' => S <$> find sub s'
       end.

(** [s.find(sub, start)] for a non-negative [start]. *)
Definition find_from (sub s : string) (start : nat) : option nat :=
  if Nat.ltb (len s) start then None
  else (λ i, start + i) <$> find sub (skip start s).

(** [sub in s]. *)
Definition contains (sub s : string) : bool :=
  match find sub s with Some _ => true | None => false end.

Fixpoint lstrip (s : string) : string :=
  match s with
  | String c s' => if is_space c then lstrip s' else s
  | "" => ""
  end.

Fixpoint rstrip (s : string) : string :=
  match s with
  | "" => ""
  | String c s' =>
      match rstrip s' with
      | "" => if is_space c then "" else String c ""
      | r => String c r
      end
  end.

Definition strip (s : string) : string := rstrip (lstrip s).

(** [s.split(sep)] for a one-character separator. *)
Fixpoint split (sep : ascii) (s : string) : list string :=
  match s with
  | "" => [""]
  | String c s' =>
      if Ascii.eqb c sep then "" :: split sep s'
      else match split sep s' with
           | w :: ws => String c w :: ws
           | [] => [String c ""]
           end
  end.

(** [s.split(sep)[0]]. *)
Definition first_field (sep : ascii) (s : string) : string :=
  match split sep s with w :: _ => w | [] => "" end.

Definition lower_char (c : ascii) : ascii :=
  if between 65 90 (code c)
     || (between 192 222 (code c) && negb (Nat.eqb (code c) 215))
  then ascii_of_nat (code c + 32) else c.

Fixpoint lower (s : string) : string :=
  match s with
  | "" => ""
  | String c s' => String (lower_char c) (lower s')
  end.

(** Truthiness of a text and of an optional text ([None] and [""] are
    falsy). *)
Definition truthy (s : string) : bool := negb (String.eqb s "").

Definition truthy_opt (o : option string) : bool :=
  match o with Some s => truthy s | None => false end.

(** [str(n)] for an integer. *)
Definition str_int (z : Z) : string := NilZero.string_of_int (Z.to_int z).

Definition hex_digit (n : nat) : ascii :=
  if Nat.ltb n 10 then ascii_of_nat (48 + n) else ascii_of_nat (87 + n).

Definition printable (c : ascii) : bool :=
  between 32 126 (code c) || (between 161 255 (code c) && negb (Nat.eqb (code c) 173)).

(** One character of [repr(s)] with the quote character [q]. *)
Definition repr_char (q : ascii) (c : ascii) : string :=
  if Ascii.eqb c q || Ascii.eqb c "\"%char then String "\"%char (String c "")
  else if Ascii.eqb c "009"%char then "\t"
  else if Ascii.eqb c "010"%char then "\n"
  else if Ascii.eqb c "013"%char then "\r"
  else if printable c then String c ""
  else String "\"%char (String "x"%char
         (String (hex_digit (code c / 16)) (String (hex_digit (code c mod 16)) ""))).

Fixpoint repr_body (q : ascii) (s : string) : string :=
  match s with
  | "" => ""
  | String c s' => repr_char q c +:+ repr_body q s'
  end.

(** [repr(s)]: single quotes unless the text has one and no double quote. *)
Definition repr (s : string) : string :=
  let q := if contains squote s && negb (contains dquote s)
           then "034"%char else "'"%char in
  String q (repr_body q s) +:+ String q "".

End PyStr.

Import PyStr.

(** ** The three regular expressions of [workflow.py], matched by hand *)

Module PyRe.

Definition is_quote (c : ascii) : bool :=
  Ascii.eqb c "'"%char || Ascii.eqb c "034"%char.

(** A quote character (single or double) and a closing brace come next:
    the tail of the mapping pattern. *)
Definition closes (s : string) : bool :=
  match s with
  | String q (String b _) => is_quote q && Ascii.eqb b "}"%char
  | _ => false
  end.

(** A lazy run of any length: the shortest run without a newline that the
    tail follows. *)
Fixpoint lazy_tail (s : string) {struct s} : option string :=
  if closes s then Some ""
  else match s with
       | "" => None
       | String c s' =>
           if Ascii.eqb c nl_char then None else String c <$> lazy_tail s'
       end.

(** The lazy group of the pattern, one character at least, and the tail. *)
Definition lazy_group (s : string) : option string :=
  match s with
  | "" => None
  | String c s' =>
      if Ascii.eqb c nl_char then None else String c <$> lazy_tail s'
  end.

(** The mapping pattern anchored at the head of [s]: an opening brace, the
    quoted [key], a colon, optional whitespace, then a quoted lazy group and
    the closing brace (a quote is a single or a double quote character);
    the result is group 1. *)
Definition match_mapping_here (key s : string) : option string :=
  match s with
  | String "{"%char (String q1 s1) =>
      if is_quote q1 && startswith s1 key then
        match skip (len key) s1 with
        | String q2 (String ":"%char s2) =>
            if is_quote q2 then
              match lstrip s2 with
              | String q3 s3 => if is_quote q3 then lazy_group s3 else None
              | "" => None
              end
            else None
        | _ => None
        end
      else None
  | _ => None
  end.

(** [re.search(pattern, s)] for the mapping pattern: leftmost match. *)
Fixpoint search_mapping (key s : string) {struct s} : option string :=
  match match_mapping_here key s with
  | Some g => Some g
  | None =>
      match s with
      | "" => None
      | String _ s' => search_mapping key s'
      end
  end.

(** \d*$ : digits up to the end of the text or up to its final newline. *)
Fixpoint digits_to_end (s : string) : bool :=
  match s with
  | "" => true
  | String c s' =>
      if is_digit c then digits_to_end s'
      else Ascii.eqb c nl_char && String.eqb s' ""
  end.

(** [re.match(r'^-?\d+$', s)] *)
Definition match_integer (s : string) : bool :=
  let body := match s with String "-"%char s' => s' | _ => s end in
  match body with
  | String c _ => is_digit c && digits_to_end body
  | "" => false
  end.

(** [re.findall(r'\d+', s)]: the maximal runs of digits, left to right. *)
Fixpoint findall_digits_go (cur : string) (s : string) : list string :=
  match s with
  | "" => if truthy cur then [cur] else []
  | String c s' =>
      if is_digit c then findall_digits_go (cur +:+ String c "") s'
      else (if truthy cur then [cur] else []) ++ findall_digits_go "" s'
  end.

Definition findall_digits (s : string) : list string := findall_digits_go "" s.

End PyRe.

Import PyRe.

(** [int(s)] on a text made of an optional sign and decimal digits (a final
    newline is ignored), the only texts the program converts. *)
Fixpoint digits_value (acc : Z) (s : string) : Z :=
  match s with
  | String c s' =>
      if is_digit c then digits_value (10 * acc + Z.of_nat (code c - 48)) s'
      else acc
  | "" => acc
  end.

Definition py_int (s : string) : Z :=
  match s with
  | String "-"%char s' => - digits_value 0 s'
  | _ => digits_value 0 s
  end.

(** ** Tool inputs: the keyword dictionaries built by the parser *)

Inductive pyval :=
| PStr (s : string)
| PInt (z : Z).

(** A dictionary with text keys, in insertion order. *)
Definition kwargs := list (string * pyval).

Definition repr_val (v : pyval) : string :=
  match v with
  | PStr s => repr s
  | PInt z => str_int z
  end.

Fixpoint join (sep : string) (l : list string) : string :=
  match l with
  | [] => ""
  | [x] => x
  | x :: l' => x +:+ sep +:+ join sep l'
  end.

(** [str(d)] for a dictionary. *)
Definition str_dict (d : kwargs) : string :=
  "{" +:+ join ", " (map (λ kv, repr (fst kv) +:+ ": " +:+ repr_val (snd kv)) d) +:+ "}".

(** ** Helper functions of [workflow.py] *)

(** [extract_between]: the [not in] exit is the [None] case of [find]. *)
Definition extract_between (text start_marker : string) (end_marker : option string)
  : string :=
  match find start_marker text with
  | None => ""
  | Some i =>
      let start := i + len start_marker in
      let end_ :=
        if truthy_opt end_marker then
          match find_from (default "" end_marker) text start with
          | Some e => e
          | None => len text
          end
        else len text in
      strip (slice start end_ text)
  end.

Definition clean_input_text (input_text : string) : string :=
  let input_text :=
    if (startswith input_text squote && endswith input_text squote)
       || (startswith input_text dquote && endswith input_text dquote)
    then slice 1 (len input_text - 1) input_text
    else input_text in
  strip input_text.

Definition parse_tool_input (tool_name raw_input : string) : kwargs :=
  let input_text := clean_input_text raw_input in
  if String.eqb tool_name "calculator" then
    [("expression", PStr input_text)]
  else if String.eqb tool_name "datetime" then
    if truthy input_text && negb (String.eqb (lower input_text) "none")
    then [("format", PStr input_text)]
    else []
  else if String.eqb tool_name "web_search" then
    let input_text :=
      match search_mapping "query" input_text with
      | Some g => g
      | None => input_text
      end in
    [("query", PStr input_text)]
  else if String.eqb tool_name "datecalculator" then
    let input_text :=
      match search_mapping "target_date" input_text with
      | Some g => g
      | None => input_text
      end in
    if match_integer input_text
    then [("days", PInt (py_int input_text))]
    else [("target_date", PStr input_text)]
  else [].

Definition parse_tool_input_from_question (tool_name question : string) : kwargs :=
  if String.eqb tool_name "datecalculator" then
    let numbers := findall_digits question in
    if contains "until" (lower question) || contains "days to" (lower question)
    then []
    else match numbers with
         | n :: _ => [("days", PInt (py_int n))]
         | [] => [("days", PInt 0)]
         end
  else [].

(** ** History entries and the termination policy *)

(** One entry of [state['steps']]: a dictionary of texts; [None] is a key
    the entry does not have. *)
Record step := mk_step {
  s_thought : option string;
  s_tool : option string;
  s_tool_input : option string;
  s_observation : option string
}.

Global Instance step_eq_dec : EqDecision step.
Proof. solve_decision. Defined.

(** [str(x)] for a text or [None]. *)
Definition str_opt (o : option string) : string := default "None" o.

Definition py_any (l : list bool) : bool := existsb id l.

(** [len(set(l))] *)
Definition set_len {A} `{EqDecision A} (l : list A) : nat := length (remove_dups l).

(** [steps[-3:]] *)
Definition last3 (steps : list step) : list step := drop (length steps - 3) steps.

Definition complete_answer_patterns (last_step : step) : list bool :=
  let last_observation := default "" (s_observation last_step) in
  [ contains "Date calculation:" last_observation && contains "will be a" last_observation;
    contains "Date calculation:" last_observation && contains "was a" last_observation;
    contains "Days until" last_observation || contains "Days since" last_observation;
    contains "Result:" last_observation
      && bool_decide (s_tool last_step = Some "calculator");
    contains "Current date and time:" last_observation ].

Definition should_force_final_answer (steps : list step) : bool * string :=
  match last steps with
  | None => (false, "")
  | Some last_step =>
      if py_any (complete_answer_patterns last_step) then (true, "complete_answer")
      else
        let recent_tools := map s_tool (last3 steps) in
        let recent_inputs := map (λ s, str_opt (s_tool_input s)) (last3 steps) in
        if Nat.leb 3 (length steps)
           && Nat.eqb (set_len recent_tools) 1 && Nat.eqb (set_len recent_inputs) 1
        then (true, "loop_detected")
        else if Nat.leb 10 (length steps) then (true, "max_steps")
        else (false, "")
  end.

Definition calc_step (e r : string) : step :=
  mk_step (Some "compute") (Some "calculator") (Some e) (Some r).

Definition search_step (q : string) : step :=
  mk_step (Some "look it up") (Some "web_search") (Some q)
          (Some "Error searching web: timeout").

(** ** Exceptions and outcomes *)

(** An instance of Python's [Exception]: its class name and [str(e)]. *)
Record exn := mk_exn { exn_class : string; exn_msg : string }.

Inductive outcome (A : Type) :=
| Ok (a : A)
| Raise (e : exn).
Arguments Ok {A} a.
Arguments Raise {A} e.

(** ** Dates *)

(** A [datetime]: the proleptic Gregorian ordinal of its date (1 is
    0001-01-01), the microseconds since midnight, and the UTC offset in
    minutes of an aware value ([None] for a naive one). *)
Record datetime := mk_datetime {
  ordinal : Z;
  micros : Z;
  tzinfo : option Z
}.

Module Calendar.
Local Open Scope Z_scope.

Definition days_before_month (month : Z) : Z :=
  nth (Z.to_nat month) [-1; 0; 31; 59; 90; 120; 151; 181; 212; 243; 273; 304; 334] 0.

Definition days_in_month (month : Z) : Z :=
  nth (Z.to_nat month) [-1; 31; 28; 31; 30; 31; 30; 31; 31; 30; 31; 30; 31] 0.

Definition b2z (b : bool) : Z := if b then 1 else 0.

(** [_ord2ymd] of the datetime module. *)
Definition ord2ymd (n : Z) : Z * Z * Z :=
  let n := n - 1 in
  let n400 := n / 146097 in
  let n := n mod 146097 in
  let year := n400 * 400 + 1 in
  let n100 := n / 36524 in
  let n := n mod 36524 in
  let n4 := n / 1461 in
  let n := n mod 1461 in
  let n1 := n / 365 in
  let n := n mod 365 in
  let year := year + n100 * 100 + n4 * 4 + n1 in
  if (n1 =? 4) || (n100 =? 4) then (year - 1, 12, 31)
  else
    let leapyear := (n1 =? 3) && (negb (n4 =? 24) || (n100 =? 3)) in
    let month := Z.shiftr (n + 50) 5 in
    let preceding := days_before_month month + b2z ((2 <? month) && leapyear) in
    if n <? preceding then
      let month := month - 1 in
      let preceding :=
        preceding - (days_in_month month + b2z ((month =? 2) && leapyear)) in
      (year, month, n - preceding + 1)
    else (year, month, n - preceding + 1).

Definition year (d : datetime) : Z := fst (fst (ord2ymd (ordinal d))).
Definition month (d : datetime) : Z := snd (fst (ord2ymd (ordinal d))).
Definition day (d : datetime) : Z := snd (ord2ymd (ordinal d)).

(** [weekday()]: Monday is 0. *)
Definition weekday (d : datetime) : Z := (ordinal d + 6) mod 7.

Definition day_name (d : datetime) : string :=
  nth (Z.to_nat (weekday d))
      ["Monday"; "Tuesday"; "Wednesday"; "Thursday"; "Friday"; "Saturday"; "Sunday"] "".

Definition month_name (d : datetime) : string :=
  nth (Z.to_nat (month d))
      [""; "January"; "February"; "March"; "April"; "May"; "June"; "July";
       "August"; "September"; "October"; "November"; "December"] "".

Definition pad (width : nat) (z : Z) : string :=
  let s := str_int z in
  String.concat "" (replicate (width - len s) "0") +:+ s.

(** The fixed formats the tools pass to [strftime] (C locale). *)
Definition fmt_long (d : datetime) : string :=          (* %B %d, %Y *)
  month_name d +:+ " " +:+ pad 2 (day d) +:+ ", " +:+ pad 4 (year d).

Definition fmt_full (d : datetime) : string :=          (* %A, %B %d, %Y *)
  day_name d +:+ ", " +:+ fmt_long d.

Definition fmt_iso (d : datetime) : string :=           (* %Y-%m-%d *)
  pad 4 (year d) +:+ "-" +:+ pad 2 (month d) +:+ "-" +:+ pad 2 (day d).

Definition fmt_clock (d : datetime) : string :=         (* %H:%M:%S *)
  let secs := micros d / 1000000 in
  pad 2 (secs / 3600) +:+ ":" +:+ pad 2 (secs / 60 mod 60) +:+ ":" +:+ pad 2 (secs mod 60).

(** [d.replace(hour=0, minute=0, second=0, microsecond=0)] *)
Definition midnight (d : datetime) : datetime :=
  mk_datetime (ordinal d) 0 (tzinfo d).

Definition min_ordinal : Z := 1.
Definition max_ordinal : Z := 3652059.

Definition day_micros : Z := 86400000000.

(** [a - b]: the difference in microseconds; Python refuses to subtract a
    naive value from an aware one and conversely. *)
Definition sub (a b : datetime) : outcome Z :=
  let abs_micros d off := (ordinal d * day_micros + micros d) - off * 60000000 in
  match tzinfo a, tzinfo b with
  | None, None => Ok (abs_micros a 0 - abs_micros b 0)
  | Some oa, Some ob => Ok (abs_micros a oa - abs_micros b ob)
  | _, _ => Raise (mk_exn "TypeError"
              "can't subtract offset-naive and offset-aware datetimes")
  end.

(** [delta.days] *)
Definition delta_days (delta : Z) : Z := delta / day_micros.

(** [d + delta] for a delta of [n] whole days *)
Definition add_days (d : datetime) (n : Z) : outcome datetime :=
  if (ordinal d + n <? min_ordinal) || (max_ordinal <? ordinal d + n) then
    Raise (mk_exn "OverflowError" "date value out of range")
  else Ok (mk_datetime (ordinal d + n) (micros d) (tzinfo d)).

End Calendar.

Definition thanksgiving_2025 : datetime := mk_datetime 739582 0 None.


(** ** The outside world *)

Inductive node := NReason | NTool.

(** What the program asks of the world, and the nodes the graph starts, in
    the order they happen. *)
Inductive event :=
| NodeStarted (n : node)
| ModelCalled (prompt : string)
| EvalCalled (expression : string)
| ClockRead
| DateParsed (text : string)
| SearchRequested (query : string)
| PageFetched (url : string).

(** One entry of the search answer's [items]. *)
Record search_item := mk_item {
  i_title : option string;
  i_link : option string;
  i_snippet : option string
}.

(** The environment: credentials and one oracle per external service.  An
    oracle sees the events so far, so that two calls with the same argument
    may answer differently. *)
Record env := mk_env {
  (** [os.getenv] gave a non-empty value *)
  anthropic_api_key : bool;
  google_api_key : bool;
  google_search_engine_id : bool;
  (** [client.messages.create] and the extraction of the completion text *)
  model_completion : list event → string → outcome string;
  (** [eval(expression, ...)] and the formatting of its value *)
  py_eval : list event → string → outcome string;
  (** [datetime.now()]: ordinal and microseconds since midnight *)
  clock : list event → Z * Z;
  (** [now.strftime(format)] for a format chosen by the model *)
  platform_strftime : string → datetime → outcome string;
  (** [dateutil.parser.parse] *)
  dateutil_parse : list event → string → outcome datetime;
  (** the search request, its status check and the decoding of the answer:
      the value of [data['items']], [None] when the key is missing *)
  search_request : list event → string → outcome (option (list search_item));
  (** the page request, its status check, and BeautifulSoup's [get_text]
      after the script and style elements are removed *)
  page_text : list event → string → outcome string
}.

(** The mutable world: the events so far and the list objects. *)
Record world := mk_world {
  events : list event;
  heap : gmap nat (list step);
  next_loc : nat
}.

Definition empty_world : world := mk_world [] ∅ 0.

(** Computations that may raise; an exception keeps the world's changes. *)
Definition M (A : Type) : Type := world → outcome A * world.

Global Instance M_ret : MRet M := λ A a w, (Ok a, w).

Global Instance M_bind : MBind M := λ A B f m w,
  match m w with
  | (Ok a, w') => f a w'
  | (Raise e, w') => (Raise e, w')
  end.

Definition raise {A} (e : exn) : M A := λ w, (Raise e, w).

Definition lift {A} (o : outcome A) : M A := λ w, (o, w).

(** [try: body  except Exception as e: handler e] *)
Definition try_except {A} (body : M A) (handler : exn → M A) : M A := λ w,
  match body w with
  | (Raise e, w') => handler e w'
  | r => r
  end.

Definition log (ev : event) (w : world) : world :=
  mk_world (events w ++ [ev])%list (heap w) (next_loc w).

(** A call of an oracle that may raise, and of one that cannot. *)
Definition call {A} (ev : event) (oracle : list event → outcome A) : M A := λ w,
  (oracle (events w), log ev w).

Definition read {A} (ev : event) (oracle : list event → A) : M A := λ w,
  (Ok (oracle (events w)), log ev w).

(** List objects: a new list, its contents, [l.append(x)]. *)
Definition new_list (l : list step) : M nat := λ w,
  (Ok (next_loc w), mk_world (events w) (<[next_loc w := l]> (heap w)) (S (next_loc w))).

Definition contents (loc : nat) : M (list step) := λ w,
  (Ok (default [] (heap w !! loc)), w).

Definition append (loc : nat) (x : step) : M unit := λ w,
  (Ok (), mk_world (events w) (alter (λ l : list step, (l ++ [x])%list) loc (heap w)) (next_loc w)).

(** ** Tools ([tools.py]) *)

Inductive Tool := CalculatorTool | DateTimeTool | DateCalculatorTool | WebSearchTool.

Definition name (t : Tool) : string :=
  match t with
  | CalculatorTool => "calculator"
  | DateTimeTool => "datetime"
  | DateCalculatorTool => "datecalculator"
  | WebSearchTool => "web_search"
  end.

Definition description (t : Tool) : string :=
  match t with
  | CalculatorTool =>
      "Performs mathematical calculations. Use for arithmetic, algebra, and basic math operations. Input should be a valid mathematical expression."
  | DateTimeTool =>
      "Gets current date, time, day of week, and other temporal information. Use when questions ask about 'today', 'current time', 'what day', etc."
  | DateCalculatorTool =>
      "Calculates dates and days between dates. Use for: 1) 'what day will it be in X days' (provide days=X), 2) 'how many days until [date]' (provide target_date='date string'). Accepts either days (integer) OR target_date (date string like 'November 27, 2025' or '2025-11-27')."
  | WebSearchTool =>
      "Searches the web for current information. Use for facts, news, general knowledge, and any questions requiring up-to-date information from the internet."
  end.

(** [str(v)] and the truth value of an optional argument. *)
Definition str_val (v : pyval) : string :=
  match v with PStr s => s | PInt z => str_int z end.

Definition truthy_val (o : option pyval) : bool :=
  match o with
  | Some (PStr s) => truthy s
  | Some (PInt z) => negb (Z.eqb z 0)
  | None => false
  end.

(** *** CalculatorTool *)

Definition bad_tokens : list string := ["import"; "exec"; "eval"; "__"].

Definition calculator_execute (E : env) (expression : pyval) : M string :=
  try_except
    (match expression with
     | PStr expression =>
         if existsb (λ bad, contains bad (lower expression)) bad_tokens
         then mret "Error: Invalid expression"
         else
           result ← call (EvalCalled expression) (λ h, py_eval E h expression);
           mret ("Result: " +:+ result)
     | PInt _ =>
         raise (mk_exn "AttributeError" "'int' object has no attribute 'lower'")
     end)
    (λ e, mret ("Error: Could not calculate. " +:+ exn_msg e)).

(** *** DateTimeTool *)

Definition datetime_now (E : env) : M datetime :=
  t ← read ClockRead (clock E);
  mret (mk_datetime (fst t) (snd t) None).

Definition datetime_execute (E : env) (format : option pyval) : M string :=
  now ← datetime_now E;
  if truthy_val format then
    try_except
      (match format with
       | Some (PStr f) => lift (platform_strftime E f now)
       | _ => raise (mk_exn "TypeError" "strftime() argument 1 must be str, not int")
       end)
      (λ e, mret ("Error: Invalid format string '"
                  +:+ from_option str_val "None" format +:+ "'. " +:+ exn_msg e))
  else
    mret (join nl
      [ "Current date and time:";
        "- Date: " +:+ Calendar.fmt_iso now;
        "- Time: " +:+ Calendar.fmt_clock now;
        "- Day: " +:+ Calendar.day_name now;
        "- Month: " +:+ Calendar.month_name now;
        "- Year: " +:+ str_int (Calendar.year now);
        "- Timezone: Local system time" ]).

(** *** DateCalculatorTool *)

(** [int(s)] for a text: surrounding whitespace, a sign, and digits that
    single underscores may separate. *)
Fixpoint int_digits (after_digit : bool) (s : string) : bool :=
  match s with
  | "" => after_digit
  | String c s' =>
      if is_digit c then int_digits true s'
      else Ascii.eqb c "_"%char && after_digit && int_digits false s'
  end.

Fixpoint drop_underscores (s : string) : string :=
  match s with
  | "" => ""
  | String c s' =>
      if Ascii.eqb c "_"%char then drop_underscores s' else String c (drop_underscores s')
  end.

Definition int_of_text (s : string) : outcome Z :=
  let t := strip s in
  let body :=
    match t with
    | String "-"%char t' => t'
    | String "+"%char t' => t'
    | _ => t
    end in
  if int_digits false body then
    let v := digits_value 0 (drop_underscores body) in
    Ok (match t with String "-"%char _ => (- v)%Z | _ => v end)
  else Raise (mk_exn "ValueError"
                ("invalid literal for int() with base 10: " +:+ repr s)).

Definition int_of_val (v : pyval) : outcome Z :=
  match v with
  | PInt z => Ok z
  | PStr s => int_of_text s
  end.

(** [timedelta(days=n)]: the day count must fit. *)
Definition timedelta_days (n : Z) : outcome Z :=
  if (2147483647 <? n)%Z || (n <? -2147483648)%Z then
    Raise (mk_exn "OverflowError" "Python int too large to convert to C int")
  else if (999999999 <? Z.abs n)%Z then
    Raise (mk_exn "OverflowError"
             ("days=" +:+ str_int n +:+ "; must have magnitude <= 999999999"))
  else Ok n.

Definition days_today_text (target : datetime) : string :=
  "The target date " +:+ Calendar.fmt_long target +:+ " is today!".

Definition days_until_text (today target : datetime) (days_diff : Z) : string :=
  join nl
    [ "Days until " +:+ Calendar.fmt_long target +:+ ":";
      "- Today: " +:+ Calendar.fmt_full today;
      "- Target: " +:+ Calendar.fmt_full target;
      "- Days until: " +:+ str_int days_diff +:+ " days" ].

Definition days_since_text (today target : datetime) (days_diff : Z) : string :=
  join nl
    [ "Days since " +:+ Calendar.fmt_long target +:+ ":";
      "- Today: " +:+ Calendar.fmt_full today;
      "- Target: " +:+ Calendar.fmt_full target;
      "- Days since: " +:+ str_int (Z.abs days_diff) +:+ " days ago" ].

Definition parse_error_text (target_date : pyval) (e : exn) : string :=
  "Error parsing date '" +:+ str_val target_date
  +:+ "'. Please use formats like 'November 27, 2025' or '2025-11-27'. Error: "
  +:+ exn_msg e.

Definition datecalculator_execute (E : env) (days target_date : option pyval)
  : M string :=
  try_except
    (now ← datetime_now E;
     let today := Calendar.midnight now in
     match target_date with
     | Some target_date =>
         (* Mode 1: days until a target date *)
         try_except
           (target ← match target_date with
                     | PStr s => call (DateParsed s) (λ h, dateutil_parse E h s)
                     | PInt _ =>
                         raise (mk_exn "TypeError"
                           "Parser must be a string or character stream, not int")
                     end;
            let target := Calendar.midnight target in
            delta ← lift (Calendar.sub target today);
            let days_diff := Calendar.delta_days delta in
            if (days_diff =? 0)%Z then mret (days_today_text target)
            else if (0 <? days_diff)%Z then mret (days_until_text today target days_diff)
            else mret (days_since_text today target days_diff))
           (λ e, mret (parse_error_text target_date e))
     | None =>
         match days with
         | Some days =>
             (* Mode 2: the date a number of days from today *)
             days ← lift (int_of_val days);
             delta ← lift (timedelta_days days);
             target_date ← lift (Calendar.add_days today delta);
             if (days =? 0)%Z then mret ("Today is " +:+ Calendar.fmt_full today)
             else if (0 <? days)%Z then
               mret (join nl
                 [ "Date calculation:";
                   "- Today: " +:+ Calendar.fmt_full today;
                   "- " +:+ str_int days +:+ " days from today: "
                     +:+ Calendar.fmt_full target_date;
                   "- That will be a " +:+ Calendar.day_name target_date ])
             else
               mret (join nl
                 [ "Date calculation:";
                   "- Today: " +:+ Calendar.fmt_full today;
                   "- " +:+ str_int (Z.abs days) +:+ " days ago: "
                     +:+ Calendar.fmt_full target_date;
                   "- That was a " +:+ Calendar.day_name target_date ])
         | None => mret ("Today is " +:+ Calendar.fmt_full today)
         end
     end)
    (λ e,
       if String.eqb (exn_class e) "ValueError" || String.eqb (exn_class e) "TypeError"
       then mret ("Error: Invalid input. " +:+ exn_msg e)
       else mret ("Error calculating date: " +:+ exn_msg e)).

(** ** The search gateway ([google_search.py]) *)

(** [str.splitlines] boundaries: LF, VT, FF, CR, FS, GS, RS, NEL; CR LF is
    one boundary. *)
Definition is_linebreak (c : ascii) : bool :=
  between 10 13 (code c) || between 28 30 (code c) || Nat.eqb (code c) 133.

Fixpoint splitlines_go (cur : string) (s : string) : list string :=
  match s with
  | "" => if truthy cur then [cur] else []
  | String c s' =>
      if is_linebreak c then
        cur :: splitlines_go ""
                 (match s' with
                  | String c' s'' =>
                      if Ascii.eqb c "013"%char && Ascii.eqb c' "010"%char then s'' else s'
                  | "" => s'
                  end)
      else splitlines_go (cur +:+ String c "") s'
  end.

Definition splitlines (s : string) : list string := splitlines_go "" s.

(** [s.split("  ")] *)
Fixpoint split_two_spaces_go (cur : string) (s : string) : list string :=
  match s with
  | String " "%char (String " "%char s') => cur :: split_two_spaces_go "" s'
  | String c s' => split_two_spaces_go (cur +:+ String c "") s'
  | "" => [cur]
  end.

Definition split_two_spaces (s : string) : list string := split_two_spaces_go "" s.

Definition _extract_content (E : env) (url : string) (max_length : option nat)
  : M string :=
  text ← call (PageFetched url) (λ h, page_text E h url);
  let lines := map strip (splitlines text) in
  let chunks := flat_map (λ line, map strip (split_two_spaces line)) lines in
  let text := join " " (List.filter truthy chunks) in
  mret (match max_length with
        | Some n =>
            if Nat.ltb 0 n && Nat.ltb n (len text) then upto n text +:+ "..." else text
        | None => text
        end).

Record search_result := mk_result {
  r_title : string;
  r_url : string;
  r_content : string
}.

(** The body of [search_and_extract]: one attempt. *)
Definition search_attempt (E : env) (query : string) (max_length : option nat)
  : M search_result :=
  items ← call (SearchRequested query) (λ h, search_request E h query);
  match items with
  | Some (top_result :: _) =>
      let title := default "" (i_title top_result) in
      let url := default "" (i_link top_result) in
      content ← try_except (_extract_content E url max_length)
                  (λ _, mret (default "Content extraction failed" (i_snippet top_result)));
      mret (mk_result title url content)
  | _ =>
      raise (mk_exn "ValueError"
               ("No Google search results found for query: " +:+ query))
  end.

(** tenacity's [retry(stop=stop_after_attempt(n), reraise=True)]: the body is
    run again after an exception until it has run [n] times; the last
    exception is raised again.  The waits are not modelled. *)
Fixpoint retry {A} (attempts : nat) (body : M A) : M A :=
  match attempts with
  | S (S _ as rest) => try_except body (λ _, retry rest body)
  | _ => body
  end.

Definition search_and_extract (E : env) (query : string) (max_length : option nat)
  : M search_result :=
  retry 3 (search_attempt E query max_length).

(** *** WebSearchTool *)

Definition websearch_execute (E : env) (query : pyval) : M string :=
  try_except
    (result ← search_and_extract E (str_val query) (Some 3000);
     mret ("Found information from " +:+ r_title result +:+ ":" +:+ nl +:+ nl
           +:+ r_content result))
    (λ e, mret ("Error searching web: " +:+ exn_msg e)).

(** *** The call of [tool.execute] with the dictionary as keyword arguments *)

Definition parameters (t : Tool) : list string :=
  match t with
  | CalculatorTool => ["expression"]
  | DateTimeTool => ["format"]
  | DateCalculatorTool => ["days"; "target_date"]
  | WebSearchTool => ["query"]
  end.

Definition class_name (t : Tool) : string :=
  match t with
  | CalculatorTool => "CalculatorTool"
  | DateTimeTool => "DateTimeTool"
  | DateCalculatorTool => "DateCalculatorTool"
  | WebSearchTool => "WebSearchTool"
  end.

Fixpoint get (key : string) (d : kwargs) : option pyval :=
  match d with
  | [] => None
  | (k, v) :: d' => if String.eqb k key then Some v else get key d'
  end.

Definition unexpected (t : Tool) (d : kwargs) : option string :=
  head (List.filter (λ k, negb (existsb (String.eqb k) (parameters t))) (map fst d)).

Definition missing (t : Tool) (p : string) : exn :=
  mk_exn "TypeError"
    (class_name t +:+ ".execute() missing 1 required positional argument: '" +:+ p +:+ "'").

Definition execute (E : env) (t : Tool) (tool_input : kwargs) : M string :=
  match unexpected t tool_input with
  | Some k =>
      raise (mk_exn "TypeError"
               (class_name t +:+ ".execute() got an unexpected keyword argument '"
                +:+ k +:+ "'"))
  | None =>
      match t with
      | CalculatorTool =>
          match get "expression" tool_input with
          | Some expression => calculator_execute E expression
          | None => raise (missing t "expression")
          end
      | DateTimeTool => datetime_execute E (get "format" tool_input)
      | DateCalculatorTool =>
          datecalculator_execute E (get "days" tool_input) (get "target_date" tool_input)
      | WebSearchTool =>
          match get "query" tool_input with
          | Some query => websearch_execute E query
          | None => raise (missing t "query")
          end
      end
  end.

(** *** ToolRegistry *)

(** [self.tools]: a dictionary from names to tools, in insertion order. *)
Definition registry := list (string * Tool).

Fixpoint register (t : Tool) (tools : registry) : registry :=
  match tools with
  | [] => [(name t, t)]
  | (k, v) :: tools' =>
      if String.eqb k (name t) then (k, t) :: tools' else (k, v) :: register t tools'
  end.

(** [GoogleSearchTool()], run by [WebSearchTool()]. *)
Definition GoogleSearchTool_init (E : env) : M unit :=
  if negb (google_api_key E) then
    raise (mk_exn "ValueError"
             "Google API key is required. Set GOOGLE_API_KEY environment variable.")
  else if negb (google_search_engine_id E) then
    raise (mk_exn "ValueError"
             "Google Search Engine ID is required. Set GOOGLE_SEARCH_ENGINE_ID environment variable.")
  else mret ().

(** [ToolRegistry()] with [_register_default_tools]. *)
Definition ToolRegistry (E : env) : M registry :=
  let tools := register CalculatorTool [] in
  let tools := register DateTimeTool tools in
  let tools := register DateCalculatorTool tools in
  _ ← GoogleSearchTool_init E;
  mret (register WebSearchTool tools).

(** The registry once the four constructors have run. *)
Definition default_tools : registry :=
  register WebSearchTool
    (register DateCalculatorTool (register DateTimeTool (register CalculatorTool []))).

Fixpoint get_tool (tools : registry) (name : string) : option Tool :=
  match tools with
  | [] => None
  | (k, t) :: tools' => if String.eqb k name then Some t else get_tool tools' name
  end.

Definition get_tools_description (tools : registry) : string :=
  join nl (map (λ kt, "- " +:+ name (snd kt) +:+ ": " +:+ description (snd kt)) tools).

(** ** The agent state ([state.py]) *)

(** A key of a dictionary: missing, bound to [None], or bound to a value. *)
Inductive slot (A : Type) :=
| Absent
| PyNone
| Val (a : A).
Arguments Absent {A}.
Arguments PyNone {A}.
Arguments Val {A} a.

(** [d.get(key)] and [d.get(key, dflt)] *)
Definition value {A} (s : slot A) : option A :=
  match s with Val a => Some a | _ => None end.

Definition value_or {A} (dflt : A) (s : slot A) : option A :=
  match s with Val a => Some a | PyNone => None | Absent => Some dflt end.

Definition of_option {A} (o : option A) : slot A :=
  match o with Some a => Val a | None => PyNone end.

(** [AgentState]; [steps] refers to a list object of the heap. *)
Record AgentState := mk_state {
  question : string;
  thought : slot string;
  tool_name : slot string;
  tool_input : slot kwargs;
  observation : slot string;
  final_answer : slot string;
  steps : slot nat;
  error : slot string
}.

(** ** The nodes of the graph ([workflow.py]) *)

(** [ClaudeClient()] and [generate_reasoning] of [claude_client.py]. *)
Definition ClaudeClient (E : env) : M unit :=
  if negb (anthropic_api_key E) then
    raise (mk_exn "ValueError"
             "ANTHROPIC_API_KEY not found in environment variables or provided")
  else mret ().

Definition generate_reasoning (E : env) (prompt : string) : M string :=
  call (ModelCalled prompt) (λ h, model_completion E h prompt).

(** The list [state.get('steps')] denotes ([None] and a missing key read
    as the empty list, which is all the reasoning node asks of them). *)
Definition steps_of (state : AgentState) : M (list step) :=
  match steps state with
  | Val loc => contents loc
  | _ => mret []
  end.

Definition step_context (s : step) : string :=
  (if truthy_opt (s_thought s)
   then "Thought: " +:+ default "" (s_thought s) +:+ nl else "")
  +:+ (if truthy_opt (s_tool s)
       then "Tool used: " +:+ default "" (s_tool s) +:+ " with input: "
            +:+ default "N/A" (s_tool_input s) +:+ nl
       else "")
  +:+ (if truthy_opt (s_observation s)
       then "Observation: " +:+ default "" (s_observation s) +:+ nl else "")
  +:+ nl.

Definition directive (reason : string) : string :=
  if String.eqb reason "complete_answer" then
    nl +:+ nl +:+ "IMPORTANT: The previous tool call has already provided the complete answer to the question. You should now provide your FINAL ANSWER based on this information. Do NOT call the same tool again." +:+ nl +:+ nl
  else if String.eqb reason "loop_detected" then
    nl +:+ nl +:+ "CRITICAL: STOP USING TOOLS! You are stuck in a loop. The same tool with the same input has been used multiple times. You MUST provide a FINAL ANSWER NOW. Do NOT use any more tools." +:+ nl +:+ nl
  else if String.eqb reason "max_steps" then
    nl +:+ nl +:+ "CRITICAL: MAXIMUM STEPS REACHED! You MUST provide a FINAL ANSWER NOW. Do NOT use any more tools." +:+ nl +:+ nl
  else "".

Definition build_context (question : string) (history : list step) : string :=
  let context := "Question: " +:+ question +:+ nl +:+ nl in
  match history with
  | [] => context
  | _ =>
      let context := context +:+ "Previous steps:" +:+ nl in
      let context := fold_left (λ c s, c +:+ step_context s) history context in
      let '(force_answer, reason) := should_force_final_answer history in
      if force_answer then context +:+ directive reason else context
  end.

Definition reasoning_prompt (context tools_desc : string) : string :=
  context +:+ nl +:+ nl +:+ "Available tools:" +:+ nl +:+ tools_desc +:+ nl +:+ nl
  +:+ join nl
  [ "Based on the question and any previous observations, reason about what to do next.";
    "";
    "IMPORTANT: Check if you already have the complete answer from previous tool calls!";
    "- If a tool has already provided the exact answer needed, provide your FINAL ANSWER immediately";
    "- Do NOT call the same tool again with the same input";
    "- Only use another tool if you need different or additional information";
    "";
    "You can either:";
    "1. Use a tool to gather more information (ONLY if needed)";
    "2. Provide a final answer if you have enough information";
    "";
    "Think step by step about what information is needed to answer the question.";
    "";
    "NOTE: For weather questions without a specific location, you should acknowledge that you cannot provide current weather without knowing the location and provide a final answer explaining this limitation.";
    "";
    "IMPORTANT: You MUST use tools to gather information. Do NOT try to answer without using tools first.";
    "";
    "If you need to use a tool, respond in this format:";
    "THOUGHT: [Your reasoning about what to do next]";
    "TOOL: [tool_name]";
    "INPUT: [For calculator: the expression, for web_search: the query, for datecalculator: just the number of days OR the target date string, for datetime: leave empty or specify format]";
    "";
    "Only after you have used tools and gathered information, you can provide a final answer:";
    "THOUGHT: [Your reasoning about why you can now answer]";
    "FINAL ANSWER: [Your complete answer to the question based on the tool observations]";
    "";
    "Rules:";
    "- For ANY math calculation, you MUST use the calculator tool";
    "- For current date/time questions (e.g., " +:+ dquote +:+ "what day is today" +:+ dquote +:+ "), use the datetime tool";
    "- For date calculations (e.g., " +:+ dquote +:+ "what day will it be in X days" +:+ dquote +:+ " or " +:+ dquote +:+ "how many days until [date]" +:+ dquote +:+ "), use the datecalculator tool";
    "- For ANY factual question, you MUST use the web_search tool";
    "- NEVER provide an answer without first using the appropriate tool";
    "- If a tool returns an error or unhelpful result after 2-3 attempts, provide the best answer you can based on available information";
    "- If you see " +:+ dquote +:+ "Error searching web" +:+ dquote +:+ " multiple times, acknowledge the limitation and provide a final answer";
    "- Weather questions require location - if no location is specified, explain this in your final answer";
    "" ].

(** The dictionary the reasoning node returns. *)
Record updates := mk_updates {
  u_thought : string;
  u_tool_name : option string;
  u_tool_input : option kwargs;
  u_final_answer : option string
}.

(** The test of the tool branch: the tool marker occurs and no final-answer
    marker occurs in the text before its first occurrence. *)
Definition tool_branch (reasoning_text : string) : bool :=
  match find "TOOL:" reasoning_text with
  | Some i => negb (contains "FINAL ANSWER:" (upto i reasoning_text))
  | None => false
  end.

(** The end of the INPUT section: the closest marker after its start. *)
Definition input_bounds (reasoning_text : string) : nat * nat :=
  let input_start := default 0 (find "INPUT:" reasoning_text) + 6 in
  let input_end :=
    fold_left
      (λ input_end marker,
         match find_from marker reasoning_text input_start with
         | Some marker_pos => if Nat.ltb marker_pos input_end then marker_pos else input_end
         | None => input_end
         end)
      ["THOUGHT:"; "FINAL ANSWER:"; "TOOL:"] (len reasoning_text) in
  (input_start, input_end).

(** The action parser: what [reasoning_node] does with the model's answer. *)
Definition parse_reasoning (question reasoning_text : string) : updates :=
  let thought := extract_between reasoning_text "THOUGHT:" None in
  let u_thought := if truthy thought then thought else "" in
  if tool_branch reasoning_text then
    let tool_name := extract_between reasoning_text "TOOL:" None in
    let tool_name :=
      if truthy tool_name && contains nl tool_name
      then strip (first_field nl_char tool_name) else tool_name in
    if truthy tool_name then
      let tool_input :=
        if contains "INPUT:" reasoning_text then
          let '(input_start, input_end) := input_bounds reasoning_text in
          let raw_input := strip (slice input_start input_end reasoning_text) in
          parse_tool_input tool_name raw_input
        else parse_tool_input_from_question tool_name question in
      mk_updates u_thought (Some tool_name) (Some tool_input) None
    else mk_updates u_thought None None None
  else if contains "FINAL ANSWER:" reasoning_text then
    let answer := extract_between reasoning_text "FINAL ANSWER:" None in
    if truthy answer then mk_updates u_thought None None (Some answer)
    else mk_updates u_thought None None None
  else mk_updates u_thought None None None.

Definition reasoning_node (E : env) (state : AgentState) : M updates :=
  _ ← ClaudeClient E;
  registry ← ToolRegistry E;
  history ← steps_of state;
  let context := build_context (question state) history in
  let tools_desc := get_tools_description registry in
  reasoning_text ← generate_reasoning E (reasoning_prompt context tools_desc);
  mret (parse_reasoning (question state) reasoning_text).

(** The dictionary the tool node returns; [None] is a key it does not set. *)
Record tool_update := mk_tool_update {
  tu_observation : option string;
  tu_steps : option nat;
  tu_error : option string
}.

Definition error_only (msg : string) : tool_update := mk_tool_update None None (Some msg).

(** [tool_input = state.get('tool_input', {})] as keyword arguments: only a
    dictionary can be unpacked. *)
Definition keyword_arguments (tool : Tool) (state : AgentState) : M kwargs :=
  match tool_input state with
  | Val d => mret d
  | Absent => mret []
  | PyNone =>
      raise (mk_exn "TypeError"
               ("src.tools." +:+ class_name tool
                +:+ ".execute() argument after ** must be a mapping, not NoneType"))
  end.

(** The call of the selected tool: the dictionary read from the state and
    the observation. *)
Definition call_execute (E : env) (tool : Tool) (state : AgentState)
  : M (kwargs * string) :=
  tool_input ← keyword_arguments tool state;
  observation ← execute E tool tool_input;
  mret (tool_input, observation).

(** [current_steps = state.get('steps', [])] *)
Definition current_steps_of (state : AgentState) : M nat :=
  match steps state with
  | Val loc => mret loc
  | Absent => new_list []
  | PyNone =>
      raise (mk_exn "AttributeError" "'NoneType' object has no attribute 'append'")
  end.

Definition tool_execution_node (E : env) (state : AgentState) : M tool_update :=
  registry ← ToolRegistry E;
  match value (tool_name state) with
  | Some selected =>
      if truthy selected then
        match get_tool registry selected with
        | None => mret (error_only ("Tool '" +:+ selected +:+ "' not found"))
        | Some tool =>
            try_except
              (r ← call_execute E tool state;
               let '(tool_input, observation) := r in
               current_steps ← current_steps_of state;
               _ ← append current_steps
                     (mk_step (value_or "" (thought state)) (Some selected)
                              (Some (str_dict tool_input)) (Some observation));
               mret (mk_tool_update (Some observation) (Some current_steps) None))
              (λ e, mret (error_only ("Tool execution error: " +:+ exn_msg e)))
        end
      else mret (error_only "No tool selected")
  | None => mret (error_only "No tool selected")
  end.

Inductive route := execute_tool | provide_answer.

Definition route_after_reasoning (state : AgentState) : route :=
  if truthy_opt (value (final_answer state)) then provide_answer
  else if truthy_opt (value (tool_name state)) then execute_tool
  else provide_answer.

(** ** The graph and its runner *)

(** LangGraph writes every key of a node's dictionary into the state. *)
Definition apply_updates (state : AgentState) (u : updates) : AgentState :=
  mk_state (question state) (Val (u_thought u)) (of_option (u_tool_name u))
           (of_option (u_tool_input u)) (observation state)
           (of_option (u_final_answer u)) (steps state) (error state).

Definition keep {A} (old : slot A) (new : option A) : slot A :=
  match new with Some a => Val a | None => old end.

Definition apply_tool_update (state : AgentState) (u : tool_update) : AgentState :=
  mk_state (question state) (thought state) (tool_name state) (tool_input state)
           (keep (observation state) (tu_observation u))
           (final_answer state)
           (keep (steps state) (tu_steps u))
           (keep (error state) (tu_error u)).

Definition recursion_limit : nat := 25.

Definition GraphRecursionError : exn :=
  mk_exn "GraphRecursionError"
    ("Recursion limit of " +:+ str_int (Z.of_nat recursion_limit)
     +:+ " reached without hitting a stop condition. You can increase the limit by setting the `recursion_limit` config key.").

Definition started (n : node) : M unit := λ w, (Ok (), log (NodeStarted n) w).

(** The compiled graph of [create_workflow]: entry point [reason], a
    conditional edge from [reason] to [tool] or to the end, and an edge from
    [tool] back to [reason].  [fuel] is the number of node runs LangGraph
    still allows. *)
Fixpoint pregel (E : env) (fuel : nat) (n : node) (state : AgentState)
  : M AgentState :=
  match fuel with
  | 0 => raise GraphRecursionError
  | S fuel' =>
      _ ← started n;
      match n with
      | NReason =>
          u ← reasoning_node E state;
          let state := apply_updates state u in
          match route_after_reasoning state with
          | execute_tool => pregel E fuel' NTool state
          | provide_answer => mret state
          end
      | NTool =>
          u ← tool_execution_node E state;
          pregel E fuel' NReason (apply_tool_update state u)
      end
  end.

(** [workflow.invoke(initial_state, config)] *)
Definition invoke (E : env) (initial_state : AgentState) : M AgentState :=
  pregel E recursion_limit NReason initial_state.

Definition apology : string :=
  "I apologize, but I wasn't able to complete the request as it required too many steps. Please try rephrasing your question or being more specific.".

Definition error_answer (msg : string) : string :=
  if contains "recursion limit" (lower msg) then apology
  else "I encountered an error while processing your request: " +:+ msg.

(** The dictionary [run_qa_workflow] returns; [None] is Python's [None]. *)
Record qa_result := mk_qa_result {
  qa_question : string;
  qa_answer : option string;
  qa_steps : option (list step);
  qa_error : option string
}.

(** The handler of [run_qa_workflow]: a copy of the initial state (it shares
    the list object) with [error] and [final_answer] set. *)
Definition failed (initial_state : AgentState) (e : exn) : AgentState :=
  mk_state (question initial_state) (thought initial_state) (tool_name initial_state)
           (tool_input initial_state) (observation initial_state)
           (Val (error_answer (exn_msg e)))
           (steps initial_state) (Val (exn_msg e)).

Definition initial_state (question : string) (loc : nat) : AgentState :=
  mk_state question Absent Absent Absent Absent Absent (Val loc) Absent.

Definition run_qa_workflow (E : env) (question : string) : M qa_result :=
  loc ← new_list [];
  result ← try_except (invoke E (initial_state question loc))
             (λ e, mret (failed (initial_state question loc) e));
  history ← match steps result with
            | Val loc => l ← contents loc; mret (Some l)
            | PyNone => mret None
            | Absent => mret (Some [])
            end;
  mret (mk_qa_result question
          (value_or "Unable to generate an answer" (final_answer result))
          history
          (value (error result))).

(** ** Concrete environments for the examples *)

Definition model_calls (h : list event) : nat :=
  length (List.filter (λ ev, match ev with ModelCalled _ => true | _ => false end) h).

Definition search_calls (h : list event) : nat :=
  length (List.filter (λ ev, match ev with SearchRequested _ => true | _ => false end) h).

(** A model that gives the listed completions in turn, then fails. *)
Definition scripted (answers : list string) (h : list event) (prompt : string)
  : outcome string :=
  match nth_error answers (model_calls h) with
  | Some a => Ok a
  | None => Raise (mk_exn "APIConnectionError" "Connection error.")
  end.

Definition eval_table (h : list event) (expression : string) : outcome string :=
  if String.eqb expression "15 * 23 + 47" then Ok "392"
  else if String.eqb expression "1 + 1" then Ok "2"
  else Raise (mk_exn "SyntaxError" "invalid syntax (<string>, line 1)").

(** The clock shows 2025-11-03, 10:00:00. *)
Definition clock_nov3 (h : list event) : Z * Z := (739558, 36000000000)%Z.

Definition parse_table (h : list event) (text : string) : outcome datetime :=
  if String.eqb text "2025-11-27" then Ok (mk_datetime 739582 0 None)
  else if String.eqb text "2025-11-03 18:30" then Ok (mk_datetime 739558 66600000000 None)
  else if String.eqb text "October 1, 2025" then Ok (mk_datetime 739525 0 None)
  else if String.eqb text "2025-11-27T00:00:00Z" then Ok (mk_datetime 739582 0 (Some 0%Z))
  else Raise (mk_exn "ParserError" ("Unknown string format: " +:+ text)).

Definition paris_item : search_item :=
  mk_item (Some "Paris - Wikipedia") (Some "https://en.wikipedia.org/wiki/Paris")
          (Some "Paris is the capital of France.").

Definition search_table (h : list event) (query : string)
  : outcome (option (list search_item)) :=
  if String.eqb query "capital of France" then Ok (Some [paris_item])
  else if String.eqb query "quota" then
    Raise (mk_exn "HTTPError" "403 Client Error: Forbidden for url")
  else if String.eqb query "flaky" then
    (if Nat.ltb (search_calls h) 2 then Ok (Some []) else Ok (Some [paris_item]))
  else Ok None.

Definition page_down (h : list event) (url : string) : outcome string :=
  Raise (mk_exn "ConnectionError" "Max retries exceeded").

Definition demo_env (answers : list string) : env :=
  mk_env true true true (scripted answers) eval_table clock_nov3
         (λ f d, Ok f) parse_table search_table page_down.

(** The same environment without the model's API key. *)
Definition keyless_env : env :=
  mk_env false true true (scripted []) eval_table clock_nov3
         (λ f d, Ok f) parse_table search_table page_down.

(** ** Vocabulary of the specification *)

(** [sub] occurs in [text]; the occurrence after [pre] is the first one. *)
Definition occurs (sub text : string) : Prop :=
  ∃ pre post, text = pre +:+ sub +:+ post.





(** The serialized input of a history entry. *)
Definition serialized (s : step) : string := str_opt (s_tool_input s).

Definition last_three_identical (history : list step) : Prop :=
  ∃ earlier a b c,
    history = (earlier ++ [a; b; c])%list
    ∧ s_tool a = s_tool b ∧ s_tool b = s_tool c
    ∧ serialized a = serialized b ∧ serialized b = serialized c.

(** The observation of an entry states the answer by itself. *)
Definition observation_complete (s : step) : Prop :=
  let obs := default "" (s_observation s) in
  (occurs "Date calculation:" obs ∧ occurs "will be a" obs)
  ∨ (occurs "Date calculation:" obs ∧ occurs "was a" obs)
  ∨ occurs "Days until" obs
  ∨ occurs "Days since" obs
  ∨ (occurs "Result:" obs ∧ s_tool s = Some "calculator")
  ∨ occurs "Current date and time:" obs.

(** The most recent observation is complete. *)
Definition saturated (history : list step) : Prop :=
  ∃ earlier l, history = (earlier ++ [l])%list ∧ observation_complete l.

(** The nodes a session ran, in order. *)
Definition node_trace (w : world) : list node :=
  omap (λ ev, match ev with NodeStarted n => Some n | _ => None end) (events w).


(** The answer of the search API has no result. *)
Definition zero_results (E : env) (h : list event) (query : string) : Prop :=
  search_request E h query = Ok None ∨ search_request E h query = Ok (Some []).

(** The loop test of the policy. *)
Definition loop_test history : bool :=
  Nat.leb 3 (length history)
  && Nat.eqb (set_len (map s_tool (last3 history))) 1
  && Nat.eqb (set_len (map (λ s, str_opt (s_tool_input s)) (last3 history))) 1.

(** A computation that does not touch the list objects. *)
Definition quiet {A} (m : M A) : Prop :=
  ∀ w, heap (snd (m w)) = heap w ∧ next_loc (snd (m w)) = next_loc w.

(** ** Inputs of the examples *)



Definition injection_attempt : string := "__IMPORT__('os').system('ls')".

Definition same_sum_thrice : list step :=
  replicate 3 (calc_step "{'expression': '1 + 1'}" "Result: 2").

Definition same_search_thrice : list step :=
  replicate 3 (search_step "{'query': 'x'}").

Definition same_search_ten_times : list step :=
  replicate 10 (search_step "{'query': 'x'}").

Definition ten_searches : list step :=
  map (λ n, search_step (str_int (Z.of_nat n))) (seq 0 10).

Definition calculator_without_input : AgentState :=
  mk_state "What is 15 * 23 + 47?" (Val "") (Val "calculator") (Val [])
           Absent PyNone (Val 0%nat) Absent.

Definition one_list : world := snd (new_list [] empty_world).

Definition unknown_then_clock : list string :=
  ["TOOL: foo"; "TOOL: datetime"; "FINAL ANSWER: done"].

Definition clock_observation : string :=
  "Current date and time:
- Date: 2025-11-03
- Time: 10:00:00
- Day: Monday
- Month: November
- Year: 2025
- Timezone: Local system time".

Definition foo_selected : AgentState :=
  mk_state "What time is it?" (Val "") (Val "foo") (Val [])
           Absent PyNone (Val 0%nat) Absent.

Definition after_key_error : world :=
  snd (run_qa_workflow keyless_env "What is 15 * 23 + 47?" empty_world).


(** The decimal notation of positive numbers, for the texts of integers. *)
From Stdlib Require Import DecimalPos.

(** ** The model client's helpers ([claude_client.py]) *)

Definition SYSTEM_PROMPT : string :=
  "You are a helpful AI assistant that answers questions based on provided content.
Your role is to provide accurate, informative answers using ONLY the information provided in the context.

Guidelines:
1. Base your answers strictly on the provided content
2. If the context doesn't contain enough information to answer the question, clearly state this
3. Be concise but comprehensive in your responses
4. Cite specific information from the context when relevant
5. If the context contains conflicting information, acknowledge this
6. Do not make up or infer information not present in the context
7. Structure your answers clearly with paragraphs when appropriate".

Definition historical_words : list string :=
  ["when"; "date"; "year"; "who invented"; "founded"; "discovered"; "history"].

Definition comparative_words : list string :=
  ["compare"; "difference"; "similar"; "versus"; "vs"; "better"; "worse"].

Definition analytical_words : list string :=
  ["why"; "how does"; "explain"; "analyze"; "cause"; "effect"; "impact"].

Definition classify_question (question : string) : string :=
  let q_lower := lower question in
  if existsb (λ word, contains word q_lower) historical_words then "historical"
  else if existsb (λ word, contains word q_lower) comparative_words then "comparative"
  else if existsb (λ word, contains word q_lower) analytical_words then "analytical"
  else "factual".

(** The dictionary [variants] of [create_prompt_variant], in insertion
    order. *)
Definition variants : list (string * string) :=
  [ ("factual", SYSTEM_PROMPT +:+ nl +:+ nl +:+
       "For factual questions, focus on providing specific dates, names, and figures from the context.");
    ("analytical", SYSTEM_PROMPT +:+ nl +:+ nl +:+
       "For analytical questions, explain the relationships and implications found in the context.");
    ("comparative", SYSTEM_PROMPT +:+ nl +:+ nl +:+
       "For comparative questions, clearly outline similarities and differences found in the context.");
    ("historical", SYSTEM_PROMPT +:+ nl +:+ nl +:+
       "For historical questions, pay special attention to chronology and cause-effect relationships in the context.") ].

Fixpoint dict_get (key : string) (d : list (string * string)) : option string :=
  match d with
  | [] => None
  | (k, v) :: d' => if String.eqb k key then Some v else dict_get key d'
  end.

Definition create_prompt_variant (question_type : string) : string :=
  default SYSTEM_PROMPT (dict_get question_type variants).

Definition failure_phrases : list string :=
  ["i cannot answer"; "no information provided"; "context does not contain"].

(** [validate_response]; [answer] is [response.get("answer")].  The loop
    over the failure phrases returns [True] at its first hit, and [True] is
    returned after it as well. *)
Definition validate_response (answer : option string) : bool :=
  if negb (truthy_opt answer) || Nat.ltb (len (strip (default "" answer))) 10
  then false
  else
    let answer_lower := lower (default "" answer) in
    if existsb (λ phrase, contains phrase answer_lower
                          && Nat.ltb (len (default "" answer)) 100)
               failure_phrases
    then true
    else true.

(** [list_tools] of the registry. *)
Definition list_tools (tools : registry) : list (string * string) :=
  map (λ kt, (name (snd kt), description (snd kt))) tools.

(** ** More vocabulary of the specification *)

(** [k] nodes in turn, beginning with [n]. *)
Fixpoint alternate (k : nat) (n : node) : list node :=
  match k with
  | 0 => []
  | S k' => n :: alternate k' (match n with NReason => NTool | NTool => NReason end)
  end.

(** A computation that starts no node. *)
Definition nodeless {A} (m : M A) : Prop :=
  ∀ w, node_trace (snd (m w)) = node_trace w.

(** The keyword dictionary fits the signature of the tool's [execute]: every
    key is a parameter and the required parameter is there. *)
Definition binds (t : Tool) (d : kwargs) : Prop :=
  unexpected t d = None
  ∧ match t with
    | CalculatorTool => is_Some (get "expression" d)
    | WebSearchTool => is_Some (get "query" d)
    | _ => True
    end.

(** No quote character and no newline. *)
Fixpoint plain (s : string) : bool :=
  match s with
  | "" => true
  | String c s' => negb (is_quote c) && negb (Ascii.eqb c nl_char) && plain s'
  end.

(** The events a computation adds to the log. *)
Definition added {A} (m : M A) (w : world) : list event :=
  drop (length (events w)) (events (snd (m w))).

(** A computation that always returns. *)
Definition total {A} (m : M A) : Prop := ∀ w, ∃ a w', m w = (Ok a, w').

(** The entry the tool node appends to the history. *)
Definition history_entry (state : AgentState) (selected : string) (d : kwargs)
    (out : string) : step :=
  mk_step (value_or "" (thought state)) (Some selected) (Some (str_dict d)) (Some out).

(** An event that is not the start of a node. *)
Definition plain_event (ev : event) : Prop :=
  match ev with NodeStarted _ => False | _ => True end.

(** An entry as the tool node writes it: the name of a registered tool, the
    serialized input and an observation. *)
Definition recorded (s : step) : Prop :=
  (∃ t, s_tool s = Some (name t))
  ∧ is_Some (s_tool_input s) ∧ is_Some (s_observation s).

(** The tool nodes among [fuel] nodes in turn, beginning with [n]. *)
Definition tool_runs (fuel : nat) (n : node) : nat :=
  (fuel + match n with NTool => 1 | NReason => 0 end) / 2.

(** The context of the reasoning prompt before a directive is added: the
    question and the history. *)
Definition previous_steps (question : string) (history : list step) : string :=
  fold_left (λ c s, c +:+ step_context s) history
    (("Question: " +:+ question +:+ nl +:+ nl) +:+ "Previous steps:" +:+ nl).

(** The message of the credential check that fails first. *)
Definition missing_credential (E : env) : string :=
  if negb (anthropic_api_key E)
  then "ANTHROPIC_API_KEY not found in environment variables or provided"
  else if negb (google_api_key E)
  then "Google API key is required. Set GOOGLE_API_KEY environment variable."
  else "Google Search Engine ID is required. Set GOOGLE_SEARCH_ENGINE_ID environment variable.".




(** A registry as [register] keeps it: no name twice, and every tool under
    its own name. *)
Definition well_keyed (tools : registry) : Prop :=
  NoDup (map fst tools) ∧ Forall (λ kt, fst kt = name (snd kt)) tools.

(** ** Inputs of further examples *)

(** A state in which the calculator is selected. *)
Definition calculator_selected : AgentState :=
  mk_state "What is 15 * 23 + 47?" (Val "multiply first") (Val "calculator")
           (Val [("expression", PStr "15 * 23 + 47")]) Absent PyNone (Val 0%nat) Absent.


(** The state [foo_selected] after the tool node has reported the miss. *)
Definition after_miss : AgentState :=
  apply_tool_update foo_selected (error_only "Tool 'foo' not found").

(** A page that can be read, and an environment that serves it. *)
Definition page_up (h : list event) (url : string) : outcome string :=
  Ok "Paris
  is   the capital".

Definition reading_env : env :=
  mk_env true true true (scripted []) eval_table clock_nov3
         (λ f d, Ok f) parse_table search_table page_up.

(** * Properties *)

(** ** Sanity checks of the embedding on concrete inputs *)

Example find_marker : find "TOOL:" "THOUGHT: x TOOL: calculator" = Some 11.
Proof. reflexivity. Qed.

Example find_missing : find "TOOL:" "THOUGHT: x" = None.
Proof. reflexivity. Qed.

Example strip_both : strip "  calculator   " = "calculator".
Proof. reflexivity. Qed.

Example split_lines :
  split nl_char ("a" +:+ nl +:+ "b" +:+ nl) = ["a"; "b"; ""].
Proof. reflexivity. Qed.

Example lower_mixed : lower "ImPoRT os" = "import os".
Proof. reflexivity. Qed.

Example str_int_neg : str_int (-30) = "-30".
Proof. reflexivity. Qed.

Example repr_plain : repr "15 * 23" = "'15 * 23'".
Proof. reflexivity. Qed.

Example search_mapping_query :
  search_mapping "query" "x {'query': 'capital of France'} y"
  = Some "capital of France".
Proof. reflexivity. Qed.

Example search_mapping_none : search_mapping "query" "capital of France" = None.
Proof. reflexivity. Qed.

Example findall_two : findall_digits "in 10 days or 30?" = ["10"; "30"].
Proof. reflexivity. Qed.

Example py_int_neg : match_integer "-30" = true ∧ py_int "-30" = (-30)%Z.
Proof. split; reflexivity. Qed.

Example str_dict_days : str_dict [("days", PInt 10)] = "{'days': 10}".
Proof. reflexivity. Qed.

Example parse_calc :
  parse_tool_input "calculator" "15 * 23 + 47" = [("expression", PStr "15 * 23 + 47")].
Proof. reflexivity. Qed.

Example parse_days :
  parse_tool_input "datecalculator" "'10'" = [("days", PInt 10)].
Proof. reflexivity. Qed.

Example parse_question_days :
  parse_tool_input_from_question "datecalculator" "What day will it be in 10 days?"
  = [("days", PInt 10)].
Proof. reflexivity. Qed.

Example policy_empty : should_force_final_answer [] = (false, "").
Proof. reflexivity. Qed.

Example policy_loop :
  should_force_final_answer (replicate 3 (search_step "{'query': 'x'}"))
  = (true, "loop_detected").
Proof. reflexivity. Qed.

Example policy_two_same :
  should_force_final_answer (replicate 2 (search_step "{'query': 'x'}")) = (false, "").
Proof. reflexivity. Qed.

Example thanksgiving_full :
  Calendar.fmt_full thanksgiving_2025 = "Thursday, November 27, 2025".
Proof. reflexivity. Qed.

Example leap_day_iso : Calendar.fmt_iso (mk_datetime 738945 0 None) = "2024-02-29".
Proof. reflexivity. Qed.

Example year_end_iso : Calendar.fmt_iso (mk_datetime 739251 0 None) = "2024-12-31".
Proof. reflexivity. Qed.

Example policy_complete_answer :
  should_force_final_answer
    [mk_step (Some "add ten days") (Some "datecalculator") (Some "{'days': 10}")
       (Some "Date calculation:
- Today: Monday, November 03, 2025
- 10 days from today: Thursday, November 13, 2025
- That will be a Thursday")]
  = (true, "complete_answer").
Proof. reflexivity. Qed.

Example calculator_session :
  fst (run_qa_workflow
         (demo_env ["THOUGHT: multiply first. TOOL: calculator
INPUT: 15 * 23 + 47"; "THOUGHT: done. FINAL ANSWER: 392"])
         "What is 15 * 23 + 47?" empty_world)
  = Ok (mk_qa_result "What is 15 * 23 + 47?" (Some "392")
          (Some [mk_step (Some "multiply first. TOOL: calculator
INPUT: 15 * 23 + 47") (Some "calculator") (Some "{'expression': '15 * 23 + 47'}")
                   (Some "Result: 392")])
          None).
Proof. vm_compute. reflexivity. Qed.

Example ten_days_tool_input :
  u_tool_input (parse_reasoning "What day will it be in 10 days?"
                  "THOUGHT: use the date tool. TOOL: datecalculator")
  = Some [("days", PInt 10)].
Proof. reflexivity. Qed.

Example no_results_is_an_observation :
  fst (execute (demo_env []) WebSearchTool [("query", PStr "nothing at all")] empty_world)
  = Ok "Error searching web: No Google search results found for query: nothing at all".
Proof. reflexivity. Qed.

Example recursion_limit_apology :
  qa_answer <$> (match fst (run_qa_workflow (demo_env (replicate 30 "TOOL: foo"))
                              "What time is it?" empty_world) with
                 | Ok r => Some r
                 | Raise _ => None
                 end)
  = Some (Some apology).
Proof. vm_compute. reflexivity. Qed.

(** ** Text: lengths, slices and occurrences *)

Section Text.

Implicit Types s t pre post sub : string.

Lemma app_nil_l s : "" +:+ s = s.
Proof. reflexivity. Qed.

Lemma app_cons c s t : String c s +:+ t = String c (s +:+ t).
Proof. reflexivity. Qed.

Ltac text_simpl := simpl; rewrite ?app_cons, ?app_nil_l; simpl.

Lemma len_app s t : len (s +:+ t) = (len s + len t)%nat.
Proof.
  induction s as [|c s IH]; [reflexivity|].
  rewrite app_cons. unfold len in *. simpl. lia.
Qed.

Lemma skip_app pre s : skip (len pre) (pre +:+ s) = s.
Proof. induction pre as [|c pre IH]; text_simpl; [by destruct s|exact IH]. Qed.

Lemma upto_app pre s : upto (len pre) (pre +:+ s) = pre.
Proof. induction pre as [|c pre IH]; text_simpl; [by destruct s|]. by rewrite IH. Qed.


Lemma upto_skip n s : upto n s +:+ skip n s = s.
Proof.
  revert s. induction n as [|n IH]; intros [|c s]; text_simpl; try reflexivity.
  by rewrite IH.
Qed.

Lemma len_upto n s : (n ≤ len s)%nat → len (upto n s) = n.
Proof.
  revert s. induction n as [|n IH]; intros [|c s] H; simpl in *; try reflexivity.
  - unfold len in H. simpl in H. lia.
  - unfold len in *. simpl in *. rewrite IH; [reflexivity|lia].
Qed.


Lemma app_assoc' s t u : (s +:+ t) +:+ u = s +:+ (t +:+ u).
Proof. induction s as [|c s IH]; text_simpl; [reflexivity|]. by rewrite IH. Qed.

Lemma app_empty_r s : s +:+ "" = s.
Proof. induction s as [|c s IH]; text_simpl; [reflexivity|]. by rewrite IH. Qed.

Lemma prefix_app sub s : String.prefix sub s = true ↔ ∃ post, s = sub +:+ post.
Proof.
  revert s. induction sub as [|c sub IH]; intros [|d s]; simpl.
  - split; [intros _; by exists ""|reflexivity].
  - split; [intros _; by exists (String d s)|reflexivity].
  - split; [discriminate|]. intros [post H]. discriminate.
  - destruct (ascii_dec c d) as [->|Hne].
    + rewrite IH. split; intros [post H]; exists post.
      * by rewrite app_cons, <- H.
      * rewrite app_cons in H. by injection H.
    + split; [discriminate|]. intros [post H]. rewrite app_cons in H.
      injection H as -> _. by destruct Hne.
Qed.

Lemma find_nil sub : find sub "" = if String.prefix sub "" then Some 0 else None.
Proof. reflexivity. Qed.

Lemma find_cons sub c s :
  find sub (String c s)
  = if String.prefix sub (String c s) then Some 0 else S <$> find sub s.
Proof. reflexivity. Qed.

(** [find] returns the first occurrence. *)
Lemma find_Some sub s i :
  find sub s = Some i →
  s = upto i s +:+ sub +:+ skip (i + len sub) s
  ∧ (i ≤ len s)%nat
  ∧ ∀ pre' post', s = pre' +:+ sub +:+ post' → (i ≤ len pre')%nat.
Proof.
  revert i. induction s as [|c s IH]; intros i.
  - rewrite find_nil. destruct (String.prefix sub "") eqn:Hp; [|discriminate].
    intros [= <-]. apply prefix_app in Hp as [post Hp].
    destruct sub; [|discriminate]. simpl. repeat split; [lia|]. intros; lia.
  - rewrite find_cons. destruct (String.prefix sub (String c s)) eqn:Hp.
    + intros [= <-]. apply prefix_app in Hp as [post Hp].
      split; [|split; [lia|intros; lia]].
      change (upto 0 (String c s)) with "". rewrite app_nil_l.
      rewrite Hp at 1. f_equal. rewrite Hp. symmetry. apply (skip_app sub post).
    + destruct (find sub s) as [j|] eqn:Hf; [|discriminate].
      intros [= <-]. destruct (IH j eq_refl) as (Heq & Hle & Hmin).
      split; [|split].
      * change (upto (S j) (String c s)) with (String c (upto j s)).
        change (skip (S j + len sub) (String c s)) with (skip (j + len sub) s).
        by rewrite app_cons, <- Heq.
      * unfold len in *. simpl. lia.
      * intros [|d pre'] post' H.
        -- rewrite app_nil_l in H.
           assert (String.prefix sub (String c s) = true) as Hp'
             by (apply prefix_app; by exists post').
           congruence.
        -- rewrite app_cons in H. injection H as _ H. apply Hmin in H.
           unfold len in *. simpl. lia.
Qed.

Lemma find_None sub s : find sub s = None → ¬ occurs sub s.
Proof.
  induction s as [|c s IH].
  - rewrite find_nil. destruct (String.prefix sub "") eqn:Hp; [discriminate|].
    intros _ (pre & post & H). destruct pre; [|discriminate]. rewrite app_nil_l in H.
    assert (String.prefix sub "" = true) as Hp' by (apply prefix_app; by exists post).
    congruence.
  - rewrite find_cons. destruct (String.prefix sub (String c s)) eqn:Hp; [discriminate|].
    destruct (find sub s) eqn:Hf; [discriminate|]. intros _ (pre & post & H).
    destruct pre as [|d pre].
    + rewrite app_nil_l in H.
      assert (String.prefix sub (String c s) = true) as Hp'
        by (apply prefix_app; by exists post).
      congruence.
    + rewrite app_cons in H. injection H as _ H. apply IH; [reflexivity|].
      by exists pre, post.
Qed.

Lemma contains_occurs sub s : contains sub s = true ↔ occurs sub s.
Proof.
  unfold contains. destruct (find sub s) as [i|] eqn:Hf.
  - split; [intros _|reflexivity]. apply find_Some in Hf as (Heq & _).
    by exists (upto i s), (skip (i + len sub) s).
  - split; [discriminate|]. intros H. by apply find_None in Hf.
Qed.

Lemma contains_not_occurs sub s : contains sub s = false ↔ ¬ occurs sub s.
Proof.
  rewrite <- contains_occurs. destruct (contains sub s); split; congruence.
Qed.



End Text.

(** ** Text: whitespace and lines *)

Section Strip.

Implicit Types s t post : string.

Lemma truthy_spec s : truthy s = true ↔ s ≠ "".
Proof.
  unfold truthy. destruct (String.eqb_spec s ""); simpl; split; congruence.
Qed.

Lemma truthy_cons c s : truthy (String c s) = true.
Proof. reflexivity. Qed.
















End Strip.

(** ** The action parser *)

Section Parser.

Implicit Types text pre post question : string.







Lemma parse_exclusive question text :
  u_tool_name (parse_reasoning question text) = None
  ∨ u_final_answer (parse_reasoning question text) = None.
Proof.
  cbv beta zeta delta [parse_reasoning].
  destruct (tool_branch text).
  - match goal with |- context [if truthy ?n then _ else _] => destruct (truthy n) end;
      by right.
  - destruct (contains "FINAL ANSWER:" text); [|by left].
    match goal with |- context [if truthy ?n then _ else _] => destruct (truthy n) end;
      by left.
Qed.

(** The reasoning node raises or returns what the parser makes of the
    model's answer. *)
Lemma reasoning_node_parses E state w :
  (∃ e, fst (reasoning_node E state w) = Raise e)
  ∨ ∃ text, fst (reasoning_node E state w) = Ok (parse_reasoning (question state) text).
Proof.
  unfold reasoning_node, ClaudeClient, ToolRegistry, GoogleSearchTool_init, steps_of,
    generate_reasoning, call, contents, mbind, M_bind, mret, M_ret, raise.
  destruct (anthropic_api_key E); simpl; [|left; by eexists].
  destruct (google_api_key E); simpl; [|left; by eexists].
  destruct (google_search_engine_id E); simpl; [|left; by eexists].
  destruct (steps state); simpl;
    match goal with
    | |- context [model_completion E ?h ?p] =>
        destruct (model_completion E h p) as [text|e]
    end; simpl; first [left; by eexists | right; by eexists].
Qed.

End Parser.

(** * The claims *)

(** ** The action parser: C1 and C9 *)




(** C9.  One run of the reasoning node never yields both a tool selection
    and a final answer: whatever the model answers, the parser leaves
    [tool_name] or [final_answer] unset, and so does every update the node
    returns. *)
Theorem C9_never_both (E : env) (state : AgentState) (w : world)
    (question reasoning_text : string) :
  (u_tool_name (parse_reasoning question reasoning_text) = None
   ∨ u_final_answer (parse_reasoning question reasoning_text) = None)
  ∧ match fst (reasoning_node E state w) with
    | Ok u => u_tool_name u = None ∨ u_final_answer u = None
    | Raise _ => True
    end.
Proof.
  split; [apply parse_exclusive|].
  destruct (reasoning_node_parses E state w) as [[e ->]|[text ->]]; [exact I|].
  apply parse_exclusive.
Qed.

(** ** The calculator: C3 *)

Lemma calculator_rejects (E : env) (expression : string) (w : world) :
  existsb (λ bad, contains bad (lower expression)) bad_tokens = true →
  calculator_execute E (PStr expression) w = (Ok "Error: Invalid expression", w).
Proof.
  intros H. unfold calculator_execute, try_except. by rewrite H.
Qed.

(** C3.  When the lower-cased expression contains [import], [exec], [eval]
    or a double underscore, the calculator returns the error text and leaves
    the world as it was: no event is logged, so [eval] is never reached. *)
Theorem C3_calculator_rejects (E : env) (expression bad : string) (w : world) :
  In bad ["import"; "exec"; "eval"; "__"] →
  occurs bad (lower expression) →
  execute E CalculatorTool [("expression", PStr expression)] w
  = (Ok "Error: Invalid expression", w)
  ∧ ∀ x, ¬ In (EvalCalled x)
           (drop (length (events w))
              (events (snd (execute E CalculatorTool [("expression", PStr expression)] w)))).
Proof.
  intros Hbad Hocc.
  assert (execute E CalculatorTool [("expression", PStr expression)] w
          = (Ok "Error: Invalid expression", w)) as Hx.
  { change (calculator_execute E (PStr expression) w
            = (Ok "Error: Invalid expression", w)).
    apply calculator_rejects, existsb_exists. exists bad. split; [exact Hbad|].
    by apply contains_occurs. }
  split; [exact Hx|]. rewrite Hx. simpl snd. rewrite drop_all. by intros x [].
Qed.

Lemma C3_witness :
  In "import" ["import"; "exec"; "eval"; "__"]
  ∧ occurs "import" (lower injection_attempt)
  ∧ execute (demo_env []) CalculatorTool [("expression", PStr injection_attempt)] empty_world
    = (Ok "Error: Invalid expression", empty_world).
Proof.
  assert (In "import" ["import"; "exec"; "eval"; "__"]) as Hin by (left; reflexivity).
  assert (occurs "import" (lower injection_attempt)) as Hocc
    by (apply contains_occurs; reflexivity).
  split; [exact Hin|]. split; [exact Hocc|].
  exact (proj1 (C3_calculator_rejects (demo_env []) injection_attempt "import"
                  empty_world Hin Hocc)).
Defined.

(** ** The termination policy: C4 and C5 *)

Section Policy.

Implicit Types history : list step.

Lemma complete_spec (s : step) :
  py_any (complete_answer_patterns s) = true ↔ observation_complete s.
Proof.
  unfold py_any, complete_answer_patterns, observation_complete. cbn [existsb id].
  rewrite !orb_true_iff, !andb_true_iff, !contains_occurs, bool_decide_eq_true.
  intuition discriminate.
Qed.

Lemma saturated_spec history :
  (∃ l, last history = Some l ∧ py_any (complete_answer_patterns l) = true)
  ↔ saturated history.
Proof.
  unfold saturated. split.
  - intros (l & [earlier ->]%last_Some & H%complete_spec). by exists earlier, l.
  - intros (earlier & l & -> & H%complete_spec). exists l. by rewrite last_snoc.
Qed.

Lemma set_len_three {A} `{EqDecision A} (a b c : A) :
  set_len [a; b; c] = 1%nat ↔ a = b ∧ b = c.
Proof.
  unfold set_len. cbn [remove_dups]. unfold decide_rel.
  destruct (list_elem_of_dec c []) as [H3|_]; [by apply elem_of_nil in H3|].
  destruct (list_elem_of_dec b [c]) as [H2|H2];
    destruct (list_elem_of_dec a [b; c]) as [H1|H1]; cbn [length];
    rewrite list_elem_of_singleton in H2;
    rewrite !elem_of_cons, elem_of_nil in H1;
    (split; [intros Hl; try discriminate Hl|intros [Hab Hbc]]);
    intuition congruence.
Qed.

(** The last three entries, when there are three. *)
Lemma last3_snoc (earlier : list step) a b c :
  last3 (earlier ++ [a; b; c]) = [a; b; c].
Proof.
  unfold last3. rewrite length_app. cbn [length].
  replace (length earlier + 3 - 3)%nat with (length earlier) by lia.
  apply drop_app_length.
Qed.

Lemma last3_split history :
  (3 ≤ length history)%nat →
  ∃ earlier a b c, history = (earlier ++ [a; b; c])%list.
Proof.
  intros Hlen. exists (take (length history - 3) history).
  pose proof (take_drop (length history - 3) history) as Heq.
  pose proof (length_drop history (length history - 3)) as Hd.
  destruct (drop (length history - 3) history) as [|a [|b [|c [|d r]]]] eqn:Hdrop;
    simpl in Hd; try lia.
  exists a, b, c. by rewrite Heq.
Qed.

Lemma loop_test_spec history : loop_test history = true ↔ last_three_identical history.
Proof.
  unfold loop_test, last_three_identical, serialized. split.
  - intros [[Hlen Ht]%andb_true_iff Hi]%andb_true_iff.
    apply Nat.leb_le in Hlen. apply Nat.eqb_eq in Ht, Hi.
    destruct (last3_split history Hlen) as (earlier & a & b & c & ->).
    rewrite last3_snoc in Ht, Hi. simpl in Ht, Hi.
    apply set_len_three in Ht as [? ?]. apply set_len_three in Hi as [? ?].
    by exists earlier, a, b, c.
  - intros (earlier & a & b & c & -> & Hab & Hbc & Hiab & Hibc).
    rewrite last3_snoc. simpl map.
    rewrite (proj2 (set_len_three _ _ _)) by done.
    rewrite (proj2 (set_len_three _ _ _)) by done.
    rewrite length_app, !Nat.eqb_refl, !andb_true_r. cbn [length].
    apply Nat.leb_le. lia.
Qed.

(** The policy, case by case. *)
Lemma policy_cases history :
  should_force_final_answer history
  = match last history with
    | None => (false, "")
    | Some l =>
        if py_any (complete_answer_patterns l) then (true, "complete_answer")
        else if loop_test history then (true, "loop_detected")
        else if Nat.leb 10 (length history) then (true, "max_steps")
        else (false, "")
    end.
Proof. reflexivity. Qed.

Lemma not_saturated history l :
  last history = Some l →
  py_any (complete_answer_patterns l) = false ↔ ¬ saturated history.
Proof.
  intros Hl. rewrite <- saturated_spec. split.
  - intros Hf (l' & Hl' & Ht). congruence.
  - intros Hn. destruct (py_any (complete_answer_patterns l)) eqn:Hp; [|reflexivity].
    destruct Hn. by exists l.
Qed.

Ltac settle :=
  split;
  [ intros Hres; first [discriminate Hres | repeat split; first [reflexivity | lia]]
  | intros Hcond; first [reflexivity | intuition (discriminate || lia)] ].

Lemma policy_loop_iff history :
  should_force_final_answer history = (true, "loop_detected")
  ↔ last_three_identical history ∧ ¬ saturated history.
Proof.
  rewrite policy_cases. destruct (last history) as [l|] eqn:Hl.
  - rewrite <- loop_test_spec, <- (not_saturated history l Hl).
    destruct (py_any (complete_answer_patterns l)); [settle|].
    destruct (loop_test history); [settle|].
    destruct (Nat.leb 10 (length history)); settle.
  - split; [discriminate|]. intros [(earlier & a & b & c & -> & _) _].
    rewrite last_None in Hl. by destruct earlier.
Qed.

Lemma policy_max_iff history :
  should_force_final_answer history = (true, "max_steps")
  ↔ (10 ≤ length history)%nat ∧ ¬ saturated history ∧ ¬ last_three_identical history.
Proof.
  rewrite policy_cases. destruct (last history) as [l|] eqn:Hl.
  - rewrite <- loop_test_spec, <- (not_saturated history l Hl), <- Nat.leb_le.
    destruct (py_any (complete_answer_patterns l)); [settle|].
    destruct (loop_test history); [settle|].
    destruct (Nat.leb 10 (length history)); settle.
  - split; [discriminate|]. intros [Hlen _].
    rewrite last_None in Hl. subst. simpl in Hlen. lia.
Qed.

End Policy.

Lemma not_identical history : loop_test history = false → ¬ last_three_identical history.
Proof. intros H Hl%loop_test_spec. congruence. Qed.

Lemma not_saturated_last history l :
  last history = Some l →
  py_any (complete_answer_patterns l) = false → ¬ saturated history.
Proof. intros Hl. by apply not_saturated. Qed.

(** C4, as stated, fails: the last three entries of [same_sum_thrice] have
    the same tool and the same serialized input, but the policy answers
    [complete_answer], because it looks at the last observation first. *)
Lemma C4_counterexample :
  last_three_identical same_sum_thrice
  ∧ should_force_final_answer same_sum_thrice = (true, "complete_answer").
Proof.
  split; [|reflexivity].
  by exists [], (calc_step "{'expression': '1 + 1'}" "Result: 2"),
    (calc_step "{'expression': '1 + 1'}" "Result: 2"),
    (calc_step "{'expression': '1 + 1'}" "Result: 2").
Qed.

(** C4 (amended).  The policy returns [(True, "loop_detected")] exactly when
    the last three history entries have the same tool name and the same
    serialized input and the most recent observation does not match a
    complete-answer pattern (that check comes first); in particular it never
    returns that reason for fewer than three entries. *)
Theorem C4_loop_detected (history : list step) :
  (should_force_final_answer history = (true, "loop_detected")
   ↔ last_three_identical history ∧ ¬ saturated history)
  ∧ ((length history < 3)%nat →
     should_force_final_answer history ≠ (true, "loop_detected")).
Proof.
  split; [apply policy_loop_iff|].
  intros Hlen [(earlier & a & b & c & -> & _) _]%policy_loop_iff.
  rewrite length_app in Hlen. simpl in Hlen. lia.
Qed.

Lemma C4_witness :
  last_three_identical same_search_thrice
  ∧ (¬ saturated same_search_thrice)
  ∧ should_force_final_answer same_search_thrice = (true, "loop_detected").
Proof.
  assert (last_three_identical same_search_thrice) as H1
    by (by exists [], (search_step "{'query': 'x'}"), (search_step "{'query': 'x'}"),
          (search_step "{'query': 'x'}")).
  assert (¬ saturated same_search_thrice) as H2
    by (by apply (not_saturated_last _ (search_step "{'query': 'x'}"))).
  split; [exact H1|]. split; [exact H2|].
  exact (proj2 (proj1 (C4_loop_detected same_search_thrice)) (conj H1 H2)).
Defined.

(** C5, as stated, fails: [same_search_ten_times] has ten entries, but the
    policy answers [loop_detected], which it checks before the step cap. *)
Lemma C5_counterexample :
  length same_search_ten_times = 10%nat
  ∧ should_force_final_answer same_search_ten_times = (true, "loop_detected").
Proof. split; reflexivity. Qed.

(** C5 (amended).  The policy returns [(True, "max_steps")] exactly when the
    history has ten entries or more, the most recent observation does not
    match a complete-answer pattern and the last three entries are not
    identical in tool name and serialized input (both checks come first); it
    never returns that reason for fewer than ten entries. *)
Theorem C5_max_steps (history : list step) :
  (should_force_final_answer history = (true, "max_steps")
   ↔ (10 ≤ length history)%nat ∧ ¬ saturated history ∧ ¬ last_three_identical history)
  ∧ ((length history < 10)%nat →
     should_force_final_answer history ≠ (true, "max_steps")).
Proof.
  split; [apply policy_max_iff|].
  intros Hlen [Hge _]%policy_max_iff. lia.
Qed.

Lemma C5_witness :
  (10 ≤ length ten_searches)%nat
  ∧ (¬ saturated ten_searches)
  ∧ (¬ last_three_identical ten_searches)
  ∧ should_force_final_answer ten_searches = (true, "max_steps").
Proof.
  assert (10 ≤ length ten_searches)%nat as H1 by (simpl; lia).
  assert (¬ saturated ten_searches) as H2
    by (by apply (not_saturated_last _ (search_step "9"))).
  assert (¬ last_three_identical ten_searches) as H3 by (by apply not_identical).
  split; [exact H1|]. split; [exact H2|]. split; [exact H3|].
  exact (proj2 (proj1 (C5_max_steps ten_searches)) (conj H1 (conj H2 H3))).
Defined.

(** ** Effects: what a computation leaves untouched *)

Section Quiet.

Lemma quiet_ret {A} (a : A) : quiet (mret a).
Proof. by intros w. Qed.

Lemma quiet_raise {A} (e : exn) : quiet (raise (A:=A) e).
Proof. by intros w. Qed.

Lemma quiet_lift {A} (o : outcome A) : quiet (lift o).
Proof. by intros w. Qed.

Lemma quiet_call {A} ev (oracle : list event → outcome A) : quiet (call ev oracle).
Proof. by intros w. Qed.

Lemma quiet_read {A} ev (oracle : list event → A) : quiet (read ev oracle).
Proof. by intros w. Qed.

Lemma quiet_bind {A B} (m : M A) (f : A → M B) :
  quiet m → (∀ a, quiet (f a)) → quiet (m ≫= f).
Proof.
  intros Hm Hf w. unfold mbind, M_bind. destruct (Hm w) as [H1 H2].
  destruct (m w) as [[a|e] w1]; simpl in *; [|done].
  destruct (Hf a w1) as [H3 H4]. split; congruence.
Qed.

Lemma quiet_try {A} (m : M A) (h : exn → M A) :
  quiet m → (∀ e, quiet (h e)) → quiet (try_except m h).
Proof.
  intros Hm Hh w. unfold try_except. destruct (Hm w) as [H1 H2].
  destruct (m w) as [[a|e] w1]; simpl in *; [done|].
  destruct (Hh e w1) as [H3 H4]. split; congruence.
Qed.

Lemma quiet_retry {A} n (m : M A) : quiet m → quiet (retry n m).
Proof.
  intros Hm. induction n as [|[|n] IH]; simpl; [done|done|].
  apply quiet_try; [done|]. intros _. exact IH.
Qed.

End Quiet.

Ltac quiet_step :=
  first
    [ apply quiet_ret | apply quiet_raise | apply quiet_lift | apply quiet_call
    | apply quiet_read | apply quiet_retry | apply quiet_try | apply quiet_bind
    | match goal with
      | |- quiet (match ?x with _ => _ end) => destruct x
      | |- quiet (if ?b then _ else _) => destruct b
      | |- ∀ _, _ => intro
      end ].

Ltac quiet_solve := repeat quiet_step.

Section Tools.

Lemma quiet_search E query max_length : quiet (search_and_extract E query max_length).
Proof.
  unfold search_and_extract, search_attempt, _extract_content. quiet_solve.
Qed.

Lemma quiet_execute E t d : quiet (execute E t d).
Proof.
  unfold execute. destruct (unexpected t d); [apply quiet_raise|].
  destruct t.
  - destruct (get "expression" d); [|apply quiet_raise].
    unfold calculator_execute. quiet_solve.
  - unfold datetime_execute, datetime_now. quiet_solve.
  - unfold datecalculator_execute, datetime_now. quiet_solve.
  - destruct (get "query" d); [|apply quiet_raise].
    unfold websearch_execute. apply quiet_try; [|quiet_solve].
    apply quiet_bind; [apply quiet_search|quiet_solve].
Qed.

Lemma quiet_call_execute E t state : quiet (call_execute E t state).
Proof.
  unfold call_execute, keyword_arguments.
  apply quiet_bind; [quiet_solve|]. intros d.
  apply quiet_bind; [apply quiet_execute|quiet_solve].
Qed.

(** Building the registry changes nothing, and fails only for want of a
    search credential. *)
Lemma ToolRegistry_cases E w :
  ToolRegistry E w = (Ok default_tools, w)
  ∨ ∃ e, ToolRegistry E w = (Raise e, w).
Proof.
  unfold ToolRegistry, GoogleSearchTool_init, mbind, M_bind, raise, mret, M_ret.
  destruct (google_api_key E); simpl; [|right; by eexists].
  destruct (google_search_engine_id E); simpl; [by left|right; by eexists].
Qed.

Lemma ToolRegistry_ok E w registry w1 :
  ToolRegistry E w = (Ok registry, w1) → registry = default_tools ∧ w1 = w.
Proof.
  destruct (ToolRegistry_cases E w) as [->|[e ->]]; [|discriminate].
  by intros [= <- <-].
Qed.

Lemma truthy_true s : s ≠ "" → truthy s = true.
Proof. apply truthy_spec. Qed.

End Tools.

(** ** The tool node: C10 and C2 *)

(** C10.  When the call of the selected tool raises, the tool node returns
    an update with the error field alone: it sets neither [observation] nor
    [steps], and no list object is changed, so the failed invocation is not
    appended to the history. *)
Theorem C10_failed_call_not_recorded (E : env) (state : AgentState)
    (w w1 w2 : world) (registry : registry) (selected : string) (t : Tool) (e : exn) :
  ToolRegistry E w = (Ok registry, w1) →
  value (tool_name state) = Some selected →
  selected ≠ "" →
  get_tool registry selected = Some t →
  call_execute E t state w1 = (Raise e, w2) →
  tool_execution_node E state w
  = (Ok (mk_tool_update None None (Some ("Tool execution error: " +:+ exn_msg e))), w2)
  ∧ heap w2 = heap w
  ∧ observation (apply_tool_update state
                   (mk_tool_update None None (Some ("Tool execution error: " +:+ exn_msg e))))
    = observation state
  ∧ steps (apply_tool_update state
             (mk_tool_update None None (Some ("Tool execution error: " +:+ exn_msg e))))
    = steps state.
Proof.
  intros Hreg Hsel Hne Hget Hcall.
  pose proof (ToolRegistry_ok _ _ _ _ Hreg) as [-> ->].
  split; [|split; [|done]].
  - unfold tool_execution_node, mbind at 1, M_bind at 1. rewrite Hreg, Hsel.
    rewrite (truthy_true _ Hne), Hget.
    unfold try_except, mbind, M_bind. by rewrite Hcall.
  - destruct (quiet_call_execute E t state w) as [Hh _]. by rewrite Hcall in Hh.
Qed.

Lemma C10_witness :
  tool_execution_node (demo_env []) calculator_without_input one_list
  = (Ok (mk_tool_update None None
           (Some "Tool execution error: CalculatorTool.execute() missing 1 required positional argument: 'expression'")),
     one_list)
  ∧ heap one_list = heap one_list.
Proof.
  destruct (C10_failed_call_not_recorded (demo_env []) calculator_without_input
              one_list one_list one_list default_tools "calculator" CalculatorTool
              (missing CalculatorTool "expression"))
    as (H1 & H2 & _); try reflexivity; [discriminate|].
  split; [exact H1|exact H2].
Defined.

(** C2, as stated, fails: the model first selects [foo], which the registry
    does not have; the graph goes back to the reasoning node, the model then
    selects [datetime], and that tool is executed after the miss. *)
Lemma C2_counterexample :
  get_tool default_tools "foo" = None
  ∧ node_trace (snd (run_qa_workflow (demo_env unknown_then_clock) "What time is it?"
                       empty_world))
    = [NReason; NTool; NReason; NTool; NReason]
  ∧ fst (run_qa_workflow (demo_env unknown_then_clock) "What time is it?" empty_world)
    = Ok (mk_qa_result "What time is it?" (Some "done")
            (Some [mk_step (Some "") (Some "datetime") (Some "{}")
                     (Some clock_observation)])
            (Some "Tool 'foo' not found")).
Proof. vm_compute. repeat split. Qed.

(** C2 (amended).  When the selected tool name is not in the registry, the
    tool node executes nothing and records nothing: it returns an update
    with the error ["Tool '<name>' not found"] alone and leaves the world as
    it was.  The session is not over: the graph runs the reasoning node
    next, on the state with that error, with one node run less to go. *)
Theorem C2_unknown_tool_returns_to_reasoning (E : env) (state : AgentState)
    (w w1 : world) (registry : registry) (selected : string) (fuel : nat) :
  ToolRegistry E (log (NodeStarted NTool) w) = (Ok registry, w1) →
  value (tool_name state) = Some selected →
  selected ≠ "" →
  get_tool registry selected = None →
  tool_execution_node E state (log (NodeStarted NTool) w)
  = (Ok (mk_tool_update None None (Some ("Tool '" +:+ selected +:+ "' not found"))),
     log (NodeStarted NTool) w)
  ∧ pregel E (S fuel) NTool state w
    = pregel E fuel NReason
        (apply_tool_update state
           (mk_tool_update None None (Some ("Tool '" +:+ selected +:+ "' not found"))))
        (log (NodeStarted NTool) w).
Proof.
  intros Hreg Hsel Hne Hget.
  pose proof (ToolRegistry_ok _ _ _ _ Hreg) as [-> ->].
  assert (tool_execution_node E state (log (NodeStarted NTool) w)
          = (Ok (mk_tool_update None None
                   (Some ("Tool '" +:+ selected +:+ "' not found"))),
             log (NodeStarted NTool) w)) as Hnode.
  { unfold tool_execution_node, mbind, M_bind. rewrite Hreg, Hsel.
    by rewrite (truthy_true _ Hne), Hget. }
  split; [exact Hnode|].
  cbn [pregel]. unfold mbind at 1, M_bind at 1, started. cbn [fst snd].
  unfold mbind at 1, M_bind at 1. by rewrite Hnode.
Qed.

Lemma C2_witness :
  tool_execution_node (demo_env []) foo_selected (log (NodeStarted NTool) one_list)
  = (Ok (mk_tool_update None None (Some "Tool 'foo' not found")),
     log (NodeStarted NTool) one_list).
Proof.
  refine (proj1 (C2_unknown_tool_returns_to_reasoning (demo_env []) foo_selected
                   one_list (log (NodeStarted NTool) one_list) default_tools "foo" 0
                   _ _ _ _)); try reflexivity.
  discriminate.
Defined.

(** ** The runner: C6 *)

Lemma error_answer_not_empty (msg : string) : error_answer msg ≠ "".
Proof. unfold error_answer. by destruct (contains "recursion limit" (lower msg)). Qed.

Lemma run_after_failure (E : env) (question : string) (w w1 : world) (e : exn) :
  invoke E (initial_state question (next_loc w)) (snd (new_list [] w)) = (Raise e, w1) →
  run_qa_workflow E question w
  = (Ok (mk_qa_result question (Some (error_answer (exn_msg e)))
           (Some (default [] (heap w1 !! next_loc w)))
           (Some (exn_msg e))),
     w1).
Proof.
  intros H. unfold run_qa_workflow, mbind at 1, M_bind at 1.
  change (new_list [] w) with (Ok (next_loc w), snd (new_list [] w)). cbv iota beta.
  unfold mbind at 1, M_bind at 1, try_except. rewrite H. reflexivity.
Qed.

Lemma run_never_raises (E : env) (question : string) (w : world) :
  ∃ r w1, run_qa_workflow E question w = (Ok r, w1).
Proof.
  destruct (invoke E (initial_state question (next_loc w)) (snd (new_list [] w)))
    as [[result|e] w1] eqn:H.
  - unfold run_qa_workflow, mbind at 1, M_bind at 1.
    change (new_list [] w) with (Ok (next_loc w), snd (new_list [] w)). cbv iota beta.
    unfold mbind at 1, M_bind at 1, try_except. rewrite H.
    unfold mbind, M_bind, contents, mret, M_ret.
    destruct (steps result); by eexists _, _.
  - rewrite (run_after_failure _ _ _ _ _ H). by eexists _, _.
Qed.

(** C6.  [run_qa_workflow] never raises.  When the graph raises an exception
    (an instance of [Exception]) while it runs, the runner returns a result
    whose error field is the exception's text and whose answer is a
    non-empty text: the apology when the lower-cased text of the exception
    contains "recursion limit", as LangGraph's recursion error does, and
    otherwise the sentence that describes the error. *)
Theorem C6_runner_catches (E : env) (question : string) (w : world) :
  (∃ r w1, run_qa_workflow E question w = (Ok r, w1))
  ∧ ∀ e w1,
      invoke E (initial_state question (next_loc w)) (snd (new_list [] w))
      = (Raise e, w1) →
      ∃ r, run_qa_workflow E question w = (Ok r, w1)
         ∧ qa_error r = Some (exn_msg e)
         ∧ (∃ a, qa_answer r = Some a ∧ a ≠ "")
         ∧ (occurs "recursion limit" (lower (exn_msg e)) → qa_answer r = Some apology)
         ∧ (¬ occurs "recursion limit" (lower (exn_msg e)) →
            qa_answer r
            = Some ("I encountered an error while processing your request: "
                    +:+ exn_msg e))
         ∧ (e = GraphRecursionError → qa_answer r = Some apology).
Proof.
  split; [apply run_never_raises|]. intros e w1 H.
  eexists. split; [by apply run_after_failure|]. cbn [qa_error qa_answer].
  split; [done|]. split; [|split; [|split]].
  - eexists. split; [done|]. apply error_answer_not_empty.
  - intros Ho%contains_occurs. unfold error_answer. by rewrite Ho.
  - intros Ho%contains_not_occurs. unfold error_answer. by rewrite Ho.
  - by intros ->.
Qed.

(** Without the model's API key the reasoning node raises at once; the
    runner answers with the description of the error. *)
Lemma C6_witness :
  ∃ r, run_qa_workflow keyless_env "What is 15 * 23 + 47?" empty_world
       = (Ok r, after_key_error)
     ∧ qa_error r
       = Some "ANTHROPIC_API_KEY not found in environment variables or provided"
     ∧ (∃ a, qa_answer r = Some a ∧ a ≠ "").
Proof.
  destruct (proj2 (C6_runner_catches keyless_env "What is 15 * 23 + 47?" empty_world)
              (mk_exn "ValueError"
                 "ANTHROPIC_API_KEY not found in environment variables or provided")
              after_key_error eq_refl)
    as (r & Hrun & Herr & Hans & _).
  exists r. split; [exact Hrun|]. split; [exact Herr|exact Hans].
Defined.

(** ** The search gateway: C7 *)

Section Search.

Variable E : env.
Variable query : string.
Variable max_length : option nat.






End Search.




(** ** The date-offset tool: C8 *)

Section Dates.

Local Open Scope Z_scope.




Lemma endswith_app (p s : string) : endswith (p +:+ s) s = true.
Proof.
  unfold endswith. rewrite len_app.
  replace (len p + len s - len s)%nat with (len p) by lia.
  rewrite skip_app, String.eqb_refl, andb_true_r. apply Nat.leb_le. lia.
Qed.




End Dates.




(** * Further properties of the code *)

(** ** The termination policy *)

Lemma saturated_complete (history : list step) :
  saturated history → should_force_final_answer history = (true, "complete_answer").
Proof.
  intros (l & Hl & H)%saturated_spec. by rewrite policy_cases, Hl, H.
Qed.

(** X1.  The policy answers [(True, "complete_answer")] exactly when the most
    recent observation matches a complete-answer pattern, whatever the
    length of the history; it answers [(False, "")] exactly when no rule
    fires; and the flag is set exactly when a reason is given. *)
Theorem policy_reasons (history : list step) :
  (should_force_final_answer history = (true, "complete_answer") ↔ saturated history)
  ∧ (should_force_final_answer history = (false, "")
     ↔ ¬ saturated history ∧ ¬ last_three_identical history
       ∧ (length history < 10)%nat)
  ∧ (fst (should_force_final_answer history) = true
     ↔ snd (should_force_final_answer history) ≠ "").
Proof.
  rewrite policy_cases. destruct (last history) as [l|] eqn:Hl.
  - rewrite <- loop_test_spec.
    assert (saturated history ↔ py_any (complete_answer_patterns l) = true) as ->.
    { rewrite <- saturated_spec. split; [intros (l' & Hl' & H); congruence|].
      intros H. by exists l. }
    assert ((length history < 10)%nat ↔ Nat.leb 10 (length history) = false) as ->
      by (rewrite Nat.leb_gt; lia).
    destruct (py_any (complete_answer_patterns l)), (loop_test history),
      (Nat.leb 10 (length history)); cbn [fst snd];
      repeat split; intros; try discriminate; try done; intuition discriminate.
  - apply last_None in Hl as ->. cbn [fst snd].
    assert (¬ saturated []) as Hs
      by (intros (earlier & l & Heq & _); by destruct earlier).
    assert (¬ last_three_identical []) as Hi
      by (intros (earlier & a & b & c & Heq & _); by destruct earlier).
    split; [split; [discriminate|done]|]. split; [|split; [discriminate|done]].
    split; [intros _|done]. repeat split; [done|done|simpl; lia].
Qed.

(** ** The registry *)

Lemma eqb_sym (a b : string) : String.eqb a b = String.eqb b a.
Proof.
  destruct (String.eqb_spec a b) as [->|H]; [by rewrite String.eqb_refl|].
  symmetry. apply String.eqb_neq. congruence.
Qed.

Lemma default_tools_lookup (n : string) (t : Tool) :
  get_tool default_tools n = Some t ↔ n = name t.
Proof.
  change default_tools with
    [("calculator", CalculatorTool); ("datetime", DateTimeTool);
     ("datecalculator", DateCalculatorTool); ("web_search", WebSearchTool)].
  cbn [get_tool].
  destruct (String.eqb_spec "calculator" n) as [<-|H1];
    [destruct t; split; intros H; try discriminate H; done|].
  destruct (String.eqb_spec "datetime" n) as [<-|H2];
    [destruct t; split; intros H; try discriminate H; done|].
  destruct (String.eqb_spec "datecalculator" n) as [<-|H3];
    [destruct t; split; intros H; try discriminate H; done|].
  destruct (String.eqb_spec "web_search" n) as [<-|H4];
    [destruct t; split; intros H; try discriminate H; done|].
  split; [discriminate|]. intros ->. by destruct t.
Qed.

(** X2.  Registration and lookup: after [register] the tool is found under
    its name, replacing an earlier tool of that name, and every other name
    is looked up as before; the default registry knows a tool under a name
    exactly when it is the tool's own name. *)
Theorem registry_lookup (t : Tool) (tools : registry) (n : string) :
  get_tool (register t tools) (name t) = Some t
  ∧ (n ≠ name t → get_tool (register t tools) n = get_tool tools n)
  ∧ ∀ t', get_tool default_tools n = Some t' ↔ n = name t'.
Proof.
  split; [|split].
  - induction tools as [|[k v] tools IH]; cbn [register get_tool].
    + by rewrite String.eqb_refl.
    + destruct (String.eqb k (name t)) eqn:Hk; cbn [get_tool]; rewrite Hk; [done|exact IH].
  - intros Hn. induction tools as [|[k v] tools IH]; cbn [register get_tool].
    + rewrite eqb_sym. by apply String.eqb_neq in Hn as ->.
    + destruct (String.eqb k (name t)) eqn:Hk; cbn [get_tool].
      * apply String.eqb_eq in Hk as ->.
        rewrite eqb_sym. by apply String.eqb_neq in Hn as ->.
      * by rewrite IH.
  - apply default_tools_lookup.
Qed.

(** ** The model client's helpers *)

(** X3.  [validate_response] accepts a response exactly when it has an
    answer whose stripped text has ten characters or more: the failure
    phrases have no effect on the result. *)
Theorem validate_response_spec (answer : option string) :
  validate_response answer = true
  ↔ ∃ a, answer = Some a ∧ (10 ≤ len (strip a))%nat.
Proof.
  unfold validate_response. destruct answer as [a|]; cbn [truthy_opt default from_option id].
  - destruct (Nat.ltb_spec (len (strip a)) 10) as [Hlt|Hge].
    + rewrite orb_true_r. split; [discriminate|]. intros (a' & [= <-] & H). lia.
    + rewrite orb_false_r. destruct (truthy a) eqn:Ht; cbn [negb].
      * split; [intros _; by exists a|]. intros _. by destruct (existsb _ _).
      * split; [discriminate|]. intros _.
        assert (a = "") as -> by (destruct a; [done|discriminate Ht]).
        simpl in Hge. unfold len in Hge. simpl in Hge. lia.
  - split; [discriminate|]. by intros (a & [=] & _).
Qed.

(** X4.  The system prompt chosen for a question always extends
    [SYSTEM_PROMPT] by a paragraph for the question's type: the classifier
    answers with one of the four types, so the fall-back of
    [create_prompt_variant] to the bare prompt is never taken. *)
Theorem prompt_variant_of_question (question : string) :
  In (classify_question question) ["historical"; "comparative"; "analytical"; "factual"]
  ∧ ∃ paragraph,
      paragraph ≠ ""
      ∧ create_prompt_variant (classify_question question)
        = SYSTEM_PROMPT +:+ nl +:+ nl +:+ paragraph.
Proof.
  unfold classify_question.
  destruct (existsb _ historical_words);
    [|destruct (existsb _ comparative_words); [|destruct (existsb _ analytical_words)]];
    (split; [simpl; tauto|]); eexists; (split; [|reflexivity]); discriminate.
Qed.

(** ** Tools return text *)

Section Total.

Lemma total_ret {A} (a : A) : total (mret a).
Proof. intros w. by eexists _, _. Qed.

Lemma total_read {A} ev (oracle : list event → A) : total (read ev oracle).
Proof. intros w. by eexists _, _. Qed.

Lemma total_bind {A B} (m : M A) (f : A → M B) :
  total m → (∀ a, total (f a)) → total (m ≫= f).
Proof.
  intros Hm Hf w. unfold mbind, M_bind. destruct (Hm w) as (a & w1 & ->). apply Hf.
Qed.

Lemma total_try {A} (m : M A) (h : exn → M A) :
  (∀ e, total (h e)) → total (try_except m h).
Proof.
  intros Hh w. unfold try_except. destruct (m w) as [[a|e] w1]; [by eexists _, _|].
  apply Hh.
Qed.

Lemma total_calculator E v : total (calculator_execute E v).
Proof. apply total_try. intros e. apply total_ret. Qed.

Lemma total_datetime E f : total (datetime_execute E f).
Proof.
  unfold datetime_execute, datetime_now.
  apply total_bind; [apply total_bind; [apply total_read|intros; apply total_ret]|].
  intros now. destruct (truthy_val f); [|apply total_ret].
  apply total_try. intros e. apply total_ret.
Qed.

Lemma total_datecalculator E days target_date :
  total (datecalculator_execute E days target_date).
Proof.
  apply total_try. intros e.
  destruct (String.eqb (exn_class e) "ValueError" || String.eqb (exn_class e) "TypeError");
    apply total_ret.
Qed.

Lemma total_websearch E q : total (websearch_execute E q).
Proof. apply total_try. intros e. apply total_ret. Qed.

End Total.

Lemma execute_cases (E : env) (t : Tool) (d : kwargs) (w : world) :
  (binds t d → ∃ out w', execute E t d w = (Ok out, w'))
  ∧ (¬ binds t d →
     ∃ e, execute E t d w = (Raise e, w) ∧ exn_class e = "TypeError").
Proof.
  unfold binds, execute. destruct (unexpected t d) as [k|] eqn:Hu.
  - split; [by intros [? _]|]. intros _. by eexists.
  - destruct t.
    + destruct (get "expression" d) as [v|] eqn:Hg.
      * split; [intros _; apply total_calculator|]. intros H. destruct H. by split.
      * split; [by intros [_ [? ?]]|]. intros _. by eexists.
    + split; [intros _; apply total_datetime|]. intros H. by destruct H.
    + split; [intros _; apply total_datecalculator|]. intros H. by destruct H.
    + destruct (get "query" d) as [v|] eqn:Hg.
      * split; [intros _; apply total_websearch|]. intros H. destruct H. by split.
      * split; [by intros [_ [? ?]]|]. intros _. by eexists.
Qed.

(** X5.  A tool raises only when its keyword arguments do not fit: with a
    dictionary that fits the signature of [execute], every tool returns a
    text, whatever the outside world does (errors of [eval], of the date
    parser, of the search or of the formatting are reported inside the
    text); with one that does not fit, the call raises a [TypeError] before
    anything is asked of the world. *)
Theorem execute_raises_only_on_binding (E : env) (t : Tool) (d : kwargs) (w : world) :
  (binds t d → ∃ out w', execute E t d w = (Ok out, w'))
  ∧ (¬ binds t d →
     ∃ e, execute E t d w = (Raise e, w) ∧ exn_class e = "TypeError").
Proof. apply execute_cases. Qed.

(** ** What the tools report, and what the policy makes of it *)

Section Occurs.

Implicit Types sub a b : string.

Lemma occurs_app_l sub a b : occurs sub a → occurs sub (a +:+ b).
Proof.
  intros (pre & post & ->). exists pre, (post +:+ b). by rewrite !app_assoc'.
Qed.


Lemma occurs_literal sub a : contains sub a = true → occurs sub a.
Proof. apply contains_occurs. Qed.

Lemma saturated_snoc (earlier : list step) (l : step) :
  observation_complete l → saturated (earlier ++ [l]).
Proof. intros H. by exists earlier, l. Qed.

End Occurs.

(** X6.  The calculator on an expression without a disallowed token asks
    [eval] once.  When [eval] returns a value the observation is "Result: "
    followed by the value, and the policy answers [complete_answer] for
    every history that ends with this calculator entry; when [eval] raises,
    the observation is "Error: Could not calculate. " followed by the
    message, and nothing is raised. *)
Theorem calculator_outcomes (E : env) (expression : string) (w : world) :
  existsb (λ bad, contains bad (lower expression)) bad_tokens = false →
  snd (execute E CalculatorTool [("expression", PStr expression)] w)
  = log (EvalCalled expression) w
  ∧ (∀ value,
       py_eval E (events w) expression = Ok value →
       fst (execute E CalculatorTool [("expression", PStr expression)] w)
       = Ok ("Result: " +:+ value)
       ∧ ∀ earlier thought input,
           should_force_final_answer
             (earlier ++ [mk_step thought (Some "calculator") input
                            (Some ("Result: " +:+ value))])
           = (true, "complete_answer"))
  ∧ (∀ e,
       py_eval E (events w) expression = Raise e →
       fst (execute E CalculatorTool [("expression", PStr expression)] w)
       = Ok ("Error: Could not calculate. " +:+ exn_msg e)).
Proof.
  intros Hbad.
  change (execute E CalculatorTool [("expression", PStr expression)] w)
    with (calculator_execute E (PStr expression) w).
  unfold calculator_execute, try_except, call, mbind, M_bind, mret, M_ret.
  rewrite Hbad. cbv beta iota.
  destruct (py_eval E (events w) expression) as [value|e]; cbn [fst snd].
  - split; [done|]. split; [|discriminate]. intros ? [= <-]. split; [done|].
    intros earlier thought input. apply saturated_complete, saturated_snoc.
    do 4 right. left. split; [|done]. cbn [s_observation default from_option id].
    apply occurs_app_l, occurs_literal. reflexivity.
  - split; [done|]. split; [discriminate|]. by intros ? [= <-].
Qed.

Lemma calculator_outcomes_witness :
  existsb (λ bad, contains bad (lower "15 * 23 + 47")) bad_tokens = false
  ∧ fst (execute (demo_env []) CalculatorTool [("expression", PStr "15 * 23 + 47")]
           empty_world)
    = Ok "Result: 392".
Proof.
  split; [reflexivity|].
  exact (proj1 (proj1 (proj2 (calculator_outcomes (demo_env []) "15 * 23 + 47"
                                empty_world eq_refl)) "392" eq_refl)).
Defined.

(** X7.  The current-time tool without a format (or with an empty one)
    reads the clock once and returns the full breakdown, and the policy
    answers [complete_answer] for every history that ends with this
    observation.  With a format, the observation is what the platform's
    [strftime] makes of it, or "Error: Invalid format string ..." with the
    message when that call raises. *)
Theorem datetime_outcomes (E : env) (w : world) :
  (∀ d, d = [] ∨ d = [("format", PStr "")] →
     ∃ out,
       execute E DateTimeTool d w = (Ok out, log ClockRead w)
       ∧ startswith out "Current date and time:" = true
       ∧ ∀ earlier thought tool input,
           should_force_final_answer
             (earlier ++ [mk_step thought tool input (Some out)])
           = (true, "complete_answer"))
  ∧ (∀ format,
       format ≠ "" →
       fst (execute E DateTimeTool [("format", PStr format)] w)
       = Ok match platform_strftime E format
                    (mk_datetime (fst (clock E (events w))) (snd (clock E (events w))) None)
            with
            | Ok text => text
            | Raise e =>
                "Error: Invalid format string '" +:+ format +:+ "'. " +:+ exn_msg e
            end).
Proof.
  split.
  - intros d Hd. eexists. split; [|split].
    + destruct Hd as [-> | ->]; reflexivity.
    + apply prefix_app. cbn [join]. by eexists.
    + intros earlier thought tool input. apply saturated_complete, saturated_snoc.
      do 5 right. cbn [s_observation default from_option id join].
      apply occurs_app_l, occurs_literal. reflexivity.
  - intros format Hf.
    change (execute E DateTimeTool [("format", PStr format)] w)
      with (datetime_execute E (Some (PStr format)) w).
    unfold datetime_execute, datetime_now, read, try_except, lift, mbind, M_bind,
      mret, M_ret.
    cbv beta iota. cbn [truthy_val]. rewrite (truthy_true _ Hf). cbn [fst snd].
    by destruct (platform_strftime E format _).
Qed.

Section Offsets.

Local Open Scope Z_scope.


End Offsets.

(** X9.  The target-date mode reports every failure as text: when dateutil
    raises, and when it returns a datetime with a time zone (which Python
    cannot subtract today from), the observation is the "Error parsing
    date ..." text with the message.  The "Days until" and "Days since" texts
    make the policy answer [complete_answer] for every history that ends
    with them. *)
Theorem target_date_edges (E : env) (w : world) (text : string) :
  (∀ e,
     dateutil_parse E (events w ++ [ClockRead]) text = Raise e →
     fst (execute E DateCalculatorTool [("target_date", PStr text)] w)
     = Ok ("Error parsing date '" +:+ text
           +:+ "'. Please use formats like 'November 27, 2025' or '2025-11-27'. Error: "
           +:+ exn_msg e))
  ∧ (∀ target offset,
       dateutil_parse E (events w ++ [ClockRead]) text = Ok target →
       tzinfo target = Some offset →
       fst (execute E DateCalculatorTool [("target_date", PStr text)] w)
       = Ok ("Error parsing date '" +:+ text
             +:+ "'. Please use formats like 'November 27, 2025' or '2025-11-27'. Error: "
             +:+ "can't subtract offset-naive and offset-aware datetimes"))
  ∧ (∀ today day diff earlier thought tool input,
       should_force_final_answer
         (earlier ++ [mk_step thought tool input (Some (days_until_text today day diff))])
       = (true, "complete_answer")
       ∧ should_force_final_answer
           (earlier ++ [mk_step thought tool input (Some (days_since_text today day diff))])
         = (true, "complete_answer")).
Proof.
  assert (∀ out, fst (execute E DateCalculatorTool [("target_date", PStr text)] w) = out
                 ↔ fst (datecalculator_execute E None (Some (PStr text)) w) = out) as Hx
    by done.
  split; [|split].
  - intros e Hp. apply Hx.
    unfold datecalculator_execute, datetime_now, read, try_except, call, lift,
      mbind, M_bind, mret, M_ret.
    cbv beta iota.
    change (events (log ClockRead w)) with (events w ++ [ClockRead])%list.
    by rewrite Hp.
  - intros target offset Hp Ht. apply Hx.
    unfold datecalculator_execute, datetime_now, read, try_except, call, lift,
      mbind, M_bind, mret, M_ret.
    cbv beta iota.
    change (events (log ClockRead w)) with (events w ++ [ClockRead])%list.
    rewrite Hp. cbv beta iota.
    unfold Calendar.sub, Calendar.midnight. cbn [tzinfo]. by rewrite Ht.
  - intros today day diff earlier thought tool input.
    split; apply saturated_complete, saturated_snoc; cbn [s_observation default from_option id].
    + do 2 right. left. unfold days_until_text. cbn [join].
      apply occurs_app_l, occurs_app_l, occurs_literal. reflexivity.
    + do 3 right. left. unfold days_since_text. cbn [join].
      apply occurs_app_l, occurs_app_l, occurs_literal. reflexivity.
Qed.

(** ** Effects: the nodes a computation starts *)

Section Nodeless.

Lemma node_trace_log ev w : plain_event ev → node_trace (log ev w) = node_trace w.
Proof.
  intros H. unfold node_trace, log. cbn [events]. rewrite omap_app.
  destruct ev; try done; cbn; by rewrite app_nil_r.
Qed.

Lemma node_trace_started n w : node_trace (log (NodeStarted n) w) = (node_trace w ++ [n])%list.
Proof. unfold node_trace, log. cbn [events]. by rewrite omap_app. Qed.

Lemma nodeless_ret {A} (a : A) : nodeless (mret a).
Proof. by intros w. Qed.

Lemma nodeless_raise {A} (e : exn) : nodeless (raise (A:=A) e).
Proof. by intros w. Qed.

Lemma nodeless_lift {A} (o : outcome A) : nodeless (lift o).
Proof. by intros w. Qed.

Lemma nodeless_call {A} ev (oracle : list event → outcome A) :
  plain_event ev → nodeless (call ev oracle).
Proof. intros H w. by apply node_trace_log. Qed.

Lemma nodeless_read {A} ev (oracle : list event → A) :
  plain_event ev → nodeless (read ev oracle).
Proof. intros H w. by apply node_trace_log. Qed.

Lemma nodeless_bind {A B} (m : M A) (f : A → M B) :
  nodeless m → (∀ a, nodeless (f a)) → nodeless (m ≫= f).
Proof.
  intros Hm Hf w. unfold mbind, M_bind. specialize (Hm w).
  destruct (m w) as [[a|e] w1]; simpl in *; [|done]. by rewrite Hf.
Qed.

Lemma nodeless_try {A} (m : M A) (h : exn → M A) :
  nodeless m → (∀ e, nodeless (h e)) → nodeless (try_except m h).
Proof.
  intros Hm Hh w. unfold try_except. specialize (Hm w).
  destruct (m w) as [[a|e] w1]; simpl in *; [done|]. by rewrite Hh.
Qed.

Lemma nodeless_retry {A} n (m : M A) : nodeless m → nodeless (retry n m).
Proof.
  intros Hm. induction n as [|[|n] IH]; simpl; [done|done|].
  apply nodeless_try; [done|]. intros _. exact IH.
Qed.

Lemma nodeless_new_list l : nodeless (new_list l).
Proof. by intros w. Qed.

Lemma nodeless_append loc x : nodeless (append loc x).
Proof. by intros w. Qed.

Lemma nodeless_contents loc : nodeless (contents loc).
Proof. by intros w. Qed.

End Nodeless.

Ltac nodeless_step :=
  first
    [ apply nodeless_ret | apply nodeless_raise | apply nodeless_lift
    | apply nodeless_call; exact I | apply nodeless_read; exact I
    | apply nodeless_new_list | apply nodeless_append | apply nodeless_contents
    | apply nodeless_retry | apply nodeless_try | apply nodeless_bind
    | match goal with
      | |- nodeless (match ?x with _ => _ end) => destruct x
      | |- nodeless (if ?b then _ else _) => destruct b
      | |- nodeless (let '(_, _) := ?x in _) => destruct x
      | |- ∀ _, _ => intro
      end ].

Ltac nodeless_solve := repeat nodeless_step.

Section Nodes.

Lemma nodeless_execute E t d : nodeless (execute E t d).
Proof.
  unfold execute. destruct (unexpected t d); [apply nodeless_raise|].
  destruct t.
  - destruct (get "expression" d); [|apply nodeless_raise].
    unfold calculator_execute. nodeless_solve.
  - unfold datetime_execute, datetime_now. nodeless_solve.
  - unfold datecalculator_execute, datetime_now. nodeless_solve.
  - destruct (get "query" d); [|apply nodeless_raise].
    unfold websearch_execute, search_and_extract, search_attempt, _extract_content.
    nodeless_solve.
Qed.

Lemma nodeless_registry E : nodeless (ToolRegistry E).
Proof. unfold ToolRegistry, GoogleSearchTool_init. nodeless_solve. Qed.

Lemma nodeless_reasoning E state : nodeless (reasoning_node E state).
Proof.
  unfold reasoning_node, ClaudeClient, steps_of, generate_reasoning.
  apply nodeless_bind; [nodeless_solve|]. intros _.
  apply nodeless_bind; [apply nodeless_registry|]. nodeless_solve.
Qed.

Lemma nodeless_tool_node E state : nodeless (tool_execution_node E state).
Proof.
  unfold tool_execution_node.
  apply nodeless_bind; [apply nodeless_registry|]. intros registry.
  destruct (value (tool_name state)) as [selected|]; [|apply nodeless_ret].
  destruct (truthy selected); [|apply nodeless_ret].
  destruct (get_tool registry selected) as [t|]; [|apply nodeless_ret].
  apply nodeless_try; [|nodeless_solve].
  apply nodeless_bind.
  - unfold call_execute, keyword_arguments.
    apply nodeless_bind; [nodeless_solve|]. intros d.
    apply nodeless_bind; [apply nodeless_execute|nodeless_solve].
  - intros [d out]. unfold current_steps_of. nodeless_solve.
Qed.

Lemma quiet_reasoning E state : quiet (reasoning_node E state).
Proof.
  unfold reasoning_node, ClaudeClient, ToolRegistry, GoogleSearchTool_init, steps_of,
    generate_reasoning, contents.
  repeat first [quiet_step | (intros w; split; reflexivity)].
Qed.

End Nodes.

(** ** The tool node and the history *)

Section History.

(** What a successful call leads to. *)
Lemma tool_node_success (E : env) (state : AgentState) (w w1 : world) (loc : nat)
    (selected : string) (t : Tool) (d : kwargs) (out : string) :
  ToolRegistry E w = (Ok default_tools, w) →
  value (tool_name state) = Some selected →
  selected ≠ "" →
  get_tool default_tools selected = Some t →
  tool_input state = Val d →
  steps state = Val loc →
  execute E t d w = (Ok out, w1) →
  tool_execution_node E state w
  = (Ok (mk_tool_update (Some out) (Some loc) None),
     mk_world (events w1)
       (alter (λ l : list step, (l ++ [history_entry state selected d out])%list) loc
          (heap w1))
       (next_loc w1)).
Proof.
  intros Hreg Hsel Hne Hget Hin Hst Hx.
  unfold tool_execution_node, mbind at 1, M_bind at 1. rewrite Hreg, Hsel.
  rewrite (truthy_true _ Hne), Hget.
  unfold try_except, call_execute, keyword_arguments, current_steps_of, append,
    mbind, M_bind, mret, M_ret.
  rewrite Hin, Hst. cbv beta iota. by rewrite Hx.
Qed.

(** X10.  When the call of the selected tool returns an observation, the
    tool node appends exactly one entry to the history list of the state
    (the thought, the tool name, the serialized input and the observation),
    keeps every earlier entry and every other list, and returns an update
    with the observation and that same list, and no error. *)
Theorem tool_node_records (E : env) (state : AgentState) (w w1 : world) (loc : nat)
    (history : list step) (selected : string) (t : Tool) (d : kwargs) (out : string) :
  google_api_key E = true →
  google_search_engine_id E = true →
  value (tool_name state) = Some selected →
  selected ≠ "" →
  get_tool default_tools selected = Some t →
  tool_input state = Val d →
  steps state = Val loc →
  heap w !! loc = Some history →
  execute E t d w = (Ok out, w1) →
  fst (tool_execution_node E state w) = Ok (mk_tool_update (Some out) (Some loc) None)
  ∧ heap (snd (tool_execution_node E state w)) !! loc
    = Some (history ++ [mk_step (value_or "" (thought state)) (Some selected)
                          (Some (str_dict d)) (Some out)])%list
  ∧ (∀ other, other ≠ loc →
       heap (snd (tool_execution_node E state w)) !! other = heap w !! other)
  ∧ events (snd (tool_execution_node E state w)) = events w1.
Proof.
  intros Hk1 Hk2 Hsel Hne Hget Hin Hst Hh Hx.
  assert (ToolRegistry E w = (Ok default_tools, w)) as Hreg.
  { destruct (ToolRegistry_cases E w) as [H|[e H]]; [exact H|].
    unfold ToolRegistry, GoogleSearchTool_init, mbind, M_bind, raise, mret, M_ret in H.
    by rewrite Hk1, Hk2 in H. }
  rewrite (tool_node_success E state w w1 loc selected t d out) by done.
  destruct (quiet_execute E t d w) as [Hq _]. rewrite Hx in Hq. cbn [snd] in Hq.
  cbn [fst snd heap events].
  split; [done|]. split; [|split; [|done]].
  - by rewrite lookup_alter_eq, Hq, Hh.
  - intros other Ho. by rewrite lookup_alter_ne, Hq by done.
Qed.

Lemma tool_node_records_witness :
  fst (tool_execution_node (demo_env []) calculator_selected one_list)
  = Ok (mk_tool_update (Some "Result: 392") (Some 0%nat) None)
  ∧ heap (snd (tool_execution_node (demo_env []) calculator_selected one_list)) !! 0%nat
    = Some [mk_step (Some "multiply first") (Some "calculator")
              (Some "{'expression': '15 * 23 + 47'}") (Some "Result: 392")].
Proof.
  destruct (tool_node_records (demo_env []) calculator_selected one_list
              (log (EvalCalled "15 * 23 + 47") one_list) 0 [] "calculator"
              CalculatorTool [("expression", PStr "15 * 23 + 47")] "Result: 392")
    as (H1 & H2 & _); try reflexivity; [discriminate|].
  split; [exact H1|exact H2].
Defined.

(** The history list of the state only grows, by one entry at most, in a
    run of the tool node, and the node's update names no other list. *)
Lemma tool_node_grows (E : env) (state : AgentState) (w : world) (loc : nat)
    (history : list step) :
  steps state = Val loc →
  heap w !! loc = Some history →
  ∃ more,
    heap (snd (tool_execution_node E state w)) !! loc = Some (history ++ more)%list
    ∧ (length more ≤ 1)%nat
    ∧ Forall recorded more
    ∧ ∀ u, fst (tool_execution_node E state w) = Ok u →
           tu_steps u = None ∨ tu_steps u = Some loc.
Proof.
  intros Hst Hh.
  assert (∀ (r : outcome tool_update),
            (∀ u, r = Ok u → tu_steps u = None ∨ tu_steps u = Some loc) →
            ∃ more, heap w !! loc = Some (history ++ more)%list
                    ∧ (length more ≤ 1)%nat
                    ∧ Forall recorded more
                    ∧ ∀ u, r = Ok u → tu_steps u = None ∨ tu_steps u = Some loc) as Hsame.
  { intros r Hr. exists []. rewrite app_nil_r. split; [done|].
    split; [simpl; lia|]. split; [constructor|done]. }
  destruct (tool_execution_node E state w) as [r w'] eqn:Hnode. cbn [fst snd].
  unfold tool_execution_node, mbind at 1, M_bind at 1 in Hnode.
  destruct (ToolRegistry_cases E w) as [Hr|[e Hr]]; rewrite Hr in Hnode;
    cbv beta iota in Hnode;
    [|injection Hnode as <- <-; apply Hsame; intros u Hu; discriminate Hu].
  destruct (value (tool_name state)) as [selected|];
    [|injection Hnode as <- <-; apply Hsame; intros u [= <-]; by left].
  destruct (truthy selected);
    [|injection Hnode as <- <-; apply Hsame; intros u [= <-]; by left].
  destruct (get_tool default_tools selected) as [t|] eqn:Hget;
    [|injection Hnode as <- <-; apply Hsame; intros u [= <-]; by left].
  unfold try_except, mbind at 1, M_bind at 1 in Hnode.
  destruct (quiet_call_execute E t state w) as [Hq _].
  destruct (call_execute E t state w) as [[[d out]|e] w1]; cbn [fst snd] in *.
  - unfold current_steps_of, append, mbind, M_bind, mret, M_ret in Hnode.
    rewrite Hst in Hnode. cbv beta iota in Hnode. injection Hnode as <- <-.
    cbn [heap]. exists [history_entry state selected d out].
    rewrite lookup_alter_eq, Hq, Hh. split; [done|]. split; [simpl; lia|].
    split; [|intros u [= <-]; by right].
    constructor; [|constructor]. apply default_tools_lookup in Hget as ->.
    split; [by exists t|]. by split.
  - injection Hnode as <- <-. rewrite Hq. apply Hsame. intros u [= <-]. by left.
Qed.

End History.

(** ** Sessions *)

Section Sessions.

Lemma pregel_trace (E : env) (fuel : nat) :
  ∀ (n : node) (state : AgentState) (w : world),
    ∃ k, (k ≤ fuel)%nat
      ∧ (fuel ≠ 0 → k ≠ 0)%nat
      ∧ node_trace (snd (pregel E fuel n state w)) = (node_trace w ++ alternate k n)%list
      ∧ ∀ final, fst (pregel E fuel n state w) = Ok final →
          route_after_reasoning final = provide_answer
          ∧ Nat.odd k = match n with NReason => true | NTool => false end.
Proof.
  induction fuel as [|fuel IH]; intros n state w.
  { exists 0%nat. cbn. rewrite app_nil_r. repeat split; try done. }
  destruct (pregel E (S fuel) n state w) as [r w'] eqn:Hrun. cbn [fst snd].
  cbn [pregel] in Hrun. unfold mbind at 1, M_bind at 1, started in Hrun.
  cbv beta iota in Hrun.
  pose proof (node_trace_started n w) as Hstart.
  destruct n.
  - unfold mbind at 1, M_bind at 1 in Hrun.
    pose proof (nodeless_reasoning E state (log (NodeStarted NReason) w)) as Hnode.
    destruct (reasoning_node E state (log (NodeStarted NReason) w)) as [[u|e] w1];
      cbn [fst snd] in *.
    + destruct (route_after_reasoning (apply_updates state u)) eqn:Hroute.
      * destruct (IH NTool (apply_updates state u) w1) as (k & Hk & _ & Htr & Hfin).
        rewrite Hrun in Htr, Hfin. cbn [fst snd] in Htr, Hfin.
        exists (S k). split; [lia|]. split; [done|]. split.
        -- rewrite Htr, Hnode, Hstart, <- app_assoc. done.
        -- intros final Hf. destruct (Hfin final Hf) as [H1 H2]. split; [done|].
           by rewrite Nat.odd_succ, <- Nat.negb_odd, H2.
      * injection Hrun as <- <-.
        exists 1%nat. split; [lia|]. split; [done|]. split; [by rewrite Hnode, Hstart|].
        intros final [= <-]. by split.
    + injection Hrun as <- <-.
      exists 1%nat. split; [lia|]. split; [done|]. split; [by rewrite Hnode, Hstart|].
      intros final Hf. discriminate Hf.
  - unfold mbind at 1, M_bind at 1 in Hrun.
    pose proof (nodeless_tool_node E state (log (NodeStarted NTool) w)) as Hnode.
    destruct (tool_execution_node E state (log (NodeStarted NTool) w)) as [[u|e] w1];
      cbn [fst snd] in *.
    + destruct (IH NReason (apply_tool_update state u) w1) as (k & Hk & _ & Htr & Hfin).
      rewrite Hrun in Htr, Hfin. cbn [fst snd] in Htr, Hfin.
      exists (S k). split; [lia|]. split; [done|]. split.
      * rewrite Htr, Hnode, Hstart, <- app_assoc. done.
      * intros final Hf. destruct (Hfin final Hf) as [H1 H2]. split; [done|].
        by rewrite Nat.odd_succ, <- Nat.negb_odd, H2.
    + injection Hrun as <- <-.
      exists 1%nat. split; [lia|]. split; [done|]. split; [by rewrite Hnode, Hstart|].
      intros final Hf. discriminate Hf.
Qed.

(** X11.  A session runs the reasoning node and the tool node in turn,
    beginning with the reasoning node, for at least one and at most 25 node
    runs.  When [invoke] returns a state, the last node was the reasoning
    node (the number of runs is odd) and the router sends that state to the
    end of the graph. *)
Theorem session_shape (E : env) (state : AgentState) (w : world) :
  ∃ k, (1 ≤ k ≤ 25)%nat
    ∧ node_trace (snd (invoke E state w)) = (node_trace w ++ alternate k NReason)%list
    ∧ ∀ final, fst (invoke E state w) = Ok final →
        Nat.odd k = true ∧ route_after_reasoning final = provide_answer.
Proof.
  destruct (pregel_trace E recursion_limit NReason state w) as (k & Hk & Hpos & Htr & Hfin).
  exists k. split; [|split; [exact Htr|]].
  - unfold recursion_limit in *. lia.
  - intros final Hf. destruct (Hfin final Hf). by split.
Qed.

Lemma heap_log ev w : heap (log ev w) = heap w.
Proof. reflexivity. Qed.

Lemma pregel_history (E : env) (fuel : nat) :
  ∀ (n : node) (state : AgentState) (w : world) (loc : nat) (history : list step),
    steps state = Val loc →
    heap w !! loc = Some history →
    ∃ more,
      heap (snd (pregel E fuel n state w)) !! loc = Some (history ++ more)%list
      ∧ (length more ≤ tool_runs fuel n)%nat
      ∧ Forall recorded more
      ∧ ∀ final, fst (pregel E fuel n state w) = Ok final → steps final = Val loc.
Proof.
  induction fuel as [|fuel IH]; intros n state w loc history Hst Hh.
  { exists []. cbn. rewrite app_nil_r. split; [done|]. split; [lia|].
    split; [constructor|discriminate]. }
  assert (∀ (r : outcome AgentState) w',
            heap w' = heap w →
            (∀ final, r = Ok final → steps final = Val loc) →
            ∃ more, heap w' !! loc = Some (history ++ more)%list
              ∧ (length more ≤ tool_runs (S fuel) n)%nat
              ∧ Forall recorded more
              ∧ ∀ final, r = Ok final → steps final = Val loc) as Hsame.
  { intros r w' Hw Hr. exists []. rewrite app_nil_r, Hw. split; [done|].
    split; [simpl; lia|]. split; [constructor|done]. }
  destruct (pregel E (S fuel) n state w) as [r w'] eqn:Hrun. cbn [fst snd].
  cbn [pregel] in Hrun. unfold mbind at 1, M_bind at 1, started in Hrun.
  cbv beta iota in Hrun.
  destruct n.
  - unfold mbind at 1, M_bind at 1 in Hrun.
    destruct (quiet_reasoning E state (log (NodeStarted NReason) w)) as [Hq _].
    rewrite heap_log in Hq.
    destruct (reasoning_node E state (log (NodeStarted NReason) w)) as [[u|e] w1];
      cbn [fst snd] in *.
    + destruct (route_after_reasoning (apply_updates state u)) eqn:Hroute.
      * destruct (IH NTool (apply_updates state u) w1 loc history) as (more & H1 & H2 & H3 & H4);
          [done|by rewrite Hq|].
        rewrite Hrun in H1, H4. cbn [fst snd] in H1, H4.
        exists more. split; [done|]. split; [|by split].
        unfold tool_runs in *. by replace (S fuel + 0)%nat with (fuel + 1)%nat by lia.
      * injection Hrun as <- <-. apply Hsame; [done|]. by intros final [= <-].
    + injection Hrun as <- <-. apply Hsame; [done|]. intros final Hf. discriminate Hf.
  - unfold mbind at 1, M_bind at 1 in Hrun.
    destruct (tool_node_grows E state (log (NodeStarted NTool) w) loc history)
      as (more1 & G1 & G2 & G3 & G4); [done|done|].
    destruct (tool_execution_node E state (log (NodeStarted NTool) w)) as [[u|e] w1];
      cbn [fst snd] in *.
    + destruct (IH NReason (apply_tool_update state u) w1 loc (history ++ more1)%list)
        as (more & H1 & H2 & H3 & H4); [|done|].
      { cbn [apply_tool_update steps]. rewrite Hst.
        by destruct (G4 u eq_refl) as [-> | ->]. }
      rewrite Hrun in H1, H4. cbn [fst snd] in H1, H4.
      exists (more1 ++ more)%list. rewrite app_assoc. split; [done|].
      split; [|split; [by apply Forall_app|done]].
      rewrite length_app. unfold tool_runs in *.
      replace (S fuel + 1)%nat with (fuel + 0 + 1 * 2)%nat by lia.
      rewrite Nat.div_add by lia. lia.
    + injection Hrun as <- <-. exists more1. split; [done|].
      split; [|split; [done|intros final Hf; discriminate Hf]].
      unfold tool_runs. replace (S fuel + 1)%nat with (fuel + 1 * 2)%nat by lia.
      rewrite Nat.div_add by lia. lia.
Qed.

(** X12.  The runner always returns a result for the question it was given,
    with the history as a list: the list object it created for the session,
    which holds at most twelve entries, each written by the tool node (the
    name of a registered tool, the serialized input, the observation).  This
    holds as well when the session ended in an exception: the entries made
    before it are returned. *)
Theorem run_history (E : env) (question : string) (w : world) :
  ∃ r w1 l,
    run_qa_workflow E question w = (Ok r, w1)
    ∧ qa_question r = question
    ∧ qa_steps r = Some l
    ∧ heap w1 !! next_loc w = Some l
    ∧ (length l ≤ 12)%nat
    ∧ Forall recorded l.
Proof.
  destruct (pregel_history E recursion_limit NReason (initial_state question (next_loc w))
              (snd (new_list [] w)) (next_loc w) [])
    as (l & H1 & H2 & H3 & H4); [done|apply lookup_insert_eq|].
  change ([] ++ l)%list with l in H1. change (tool_runs recursion_limit NReason) with 12%nat in H2.
  fold (invoke E (initial_state question (next_loc w))) in H1, H4.
  destruct (invoke E (initial_state question (next_loc w)) (snd (new_list [] w)))
    as [[result|e] w1] eqn:H; cbn [fst snd] in H1, H4.
  - unfold run_qa_workflow, mbind at 1, M_bind at 1.
    change (new_list [] w) with (Ok (next_loc w), snd (new_list [] w)). cbv iota beta.
    unfold mbind at 1, M_bind at 1, try_except. rewrite H.
    unfold mbind, M_bind, contents, mret, M_ret.
    rewrite (H4 result eq_refl), H1. cbn [default from_option id].
    by eexists _, _, l.
  - rewrite (run_after_failure _ _ _ _ _ H), H1. by eexists _, _, l.
Qed.

End Sessions.

(** ** The reasoning turn *)

Section Turn.




(** X14.  The context of the reasoning prompt for a history that is not
    empty is the question and the entries followed by the directive for the
    policy's reason: no directive when no rule fires, and a directive (a
    text that is not empty) whenever the policy forces an answer, one for
    each of the three reasons; for an empty history the context is the
    question alone. *)
Theorem context_directive (question : string) (history : list step) :
  build_context question [] = "Question: " +:+ question +:+ nl +:+ nl
  ∧ (history ≠ [] →
     build_context question history
     = previous_steps question history
       +:+ directive (snd (should_force_final_answer history))
     ∧ (directive (snd (should_force_final_answer history)) ≠ ""
        ↔ fst (should_force_final_answer history) = true)
     ∧ (saturated history →
        snd (should_force_final_answer history) = "complete_answer")
     ∧ (¬ saturated history → last_three_identical history →
        snd (should_force_final_answer history) = "loop_detected")
     ∧ (¬ saturated history → ¬ last_three_identical history →
        (10 ≤ length history)%nat →
        snd (should_force_final_answer history) = "max_steps")).
Proof.
  split; [done|]. intros Hne.
  assert (build_context question history
          = let '(force_answer, reason) := should_force_final_answer history in
            if force_answer then previous_steps question history +:+ directive reason
            else previous_steps question history) as Hctx
    by (destruct history; [done|reflexivity]).
  rewrite Hctx, policy_cases. clear Hctx.
  destruct (last history) as [l|] eqn:Hl; [|by apply last_None in Hl].
  rewrite <- (not_saturated history l Hl).
  assert (saturated history → py_any (complete_answer_patterns l) = true) as Hsat.
  { intros Hs. destruct (py_any (complete_answer_patterns l)) eqn:Hp; [done|].
    by apply (not_saturated history l Hl) in Hp. }
  rewrite <- loop_test_spec.
  destruct (py_any (complete_answer_patterns l)).
  { cbn [fst snd]. split; [done|]. split; [by split|]. split; [done|].
    split; intros Hf; discriminate Hf. }
  destruct (loop_test history).
  { cbn [fst snd]. split; [done|]. split; [by split|].
    split; [by intros ?%Hsat|]. split; [done|]. by intros _ []. }
  destruct (Nat.leb_spec 10 (length history)).
  { cbn [fst snd]. split; [done|]. split; [by split|].
    split; [by intros ?%Hsat|]. split; [by intros _ ?|done]. }
  cbn [fst snd]. split; [by rewrite app_empty_r|]. split; [by split|].
  split; [by intros ?%Hsat|]. split; [by intros _ ?|]. intros _ _ ?. lia.
Qed.

End Turn.

(** ** Sessions that cannot start *)

(** X15.  When a credential is missing (the model's API key, the search API
    key or the search engine id), every session fails in its first
    reasoning node, before anything is asked of the model or of a tool:
    the runner returns the description of the error as the answer, the
    message of the first failing check as the error, and an empty
    history.  The search credentials are required for every question, also
    for one that needs no search. *)
Theorem session_without_credentials (E : env) (question : string) (w : world) :
  anthropic_api_key E = false ∨ google_api_key E = false
  ∨ google_search_engine_id E = false →
  fst (run_qa_workflow E question w)
  = Ok (mk_qa_result question
          (Some ("I encountered an error while processing your request: "
                 +:+ missing_credential E))
          (Some []) (Some (missing_credential E)))
  ∧ events (snd (run_qa_workflow E question w)) = (events w ++ [NodeStarted NReason])%list.
Proof.
  intros Hkeys.
  assert (∃ e, reasoning_node E (initial_state question (next_loc w))
                 (log (NodeStarted NReason) (snd (new_list [] w)))
               = (Raise e, log (NodeStarted NReason) (snd (new_list [] w)))
               ∧ exn_msg e = missing_credential E
               ∧ error_answer (exn_msg e)
                 = "I encountered an error while processing your request: "
                   +:+ missing_credential E) as (e & Hnode & Hmsg & Hanswer).
  { unfold reasoning_node, ClaudeClient, ToolRegistry, GoogleSearchTool_init,
      missing_credential, mbind, M_bind, mret, M_ret, raise.
    destruct (anthropic_api_key E); cbn [negb]; cbv beta iota; [|by eexists].
    destruct (google_api_key E); cbn [negb]; cbv beta iota; [|by eexists].
    destruct (google_search_engine_id E); cbn [negb]; cbv beta iota; [|by eexists].
    by destruct Hkeys as [?|[?|?]]. }
  rewrite (run_after_failure E question w
             (log (NodeStarted NReason) (snd (new_list [] w))) e).
  - cbn [fst snd]. rewrite Hanswer, Hmsg. split; [|done].
    cbn. by rewrite lookup_insert_eq.
  - unfold invoke, recursion_limit. cbn [pregel].
    unfold mbind at 1, M_bind at 1, started. cbv beta iota.
    unfold mbind at 1, M_bind at 1. by rewrite Hnode.
Qed.

Lemma session_without_credentials_witness :
  fst (run_qa_workflow keyless_env "What is 15 * 23 + 47?" empty_world)
  = Ok (mk_qa_result "What is 15 * 23 + 47?"
          (Some "I encountered an error while processing your request: ANTHROPIC_API_KEY not found in environment variables or provided")
          (Some [])
          (Some "ANTHROPIC_API_KEY not found in environment variables or provided")).
Proof.
  exact (proj1 (session_without_credentials keyless_env "What is 15 * 23 + 47?"
                  empty_world (or_introl eq_refl))).
Defined.

(** ** The error field *)

Lemma pregel_error_kept (E : env) (fuel : nat) :
  ∀ (n : node) (state final : AgentState) (w : world),
    is_Some (value (error state)) →
    fst (pregel E fuel n state w) = Ok final →
    is_Some (value (error final)).
Proof.
  induction fuel as [|fuel IH]; intros n state final w Herr; [discriminate|].
  destruct (pregel E (S fuel) n state w) as [r w'] eqn:Hrun. cbn [fst].
  cbn [pregel] in Hrun. unfold mbind at 1, M_bind at 1, started in Hrun.
  cbv beta iota in Hrun. intros ->.
  destruct n; unfold mbind at 1, M_bind at 1 in Hrun.
  - destruct (reasoning_node E state (log (NodeStarted NReason) w)) as [[u|e] w1];
      [|discriminate Hrun].
    destruct (route_after_reasoning (apply_updates state u)).
    + apply (IH NTool (apply_updates state u) final w1); [done|]. by rewrite Hrun.
    + by injection Hrun as <- <-.
  - destruct (tool_execution_node E state (log (NodeStarted NTool) w)) as [[u|e] w1];
      [|discriminate Hrun].
    apply (IH NReason (apply_tool_update state u) final w1); [|by rewrite Hrun].
    cbn [apply_tool_update error]. by destruct (tu_error u).
Qed.

(** X16.  The error field is never cleared: once a tool node has reported an
    error (a tool that is not registered, a call that raised), every state
    the graph returns from there on has an error, also when the session goes
    on and ends with a final answer. *)
Theorem error_is_kept (E : env) (fuel : nat) (n : node) (state final : AgentState)
    (w : world) (msg : string) :
  value (error state) = Some msg →
  fst (pregel E fuel n state w) = Ok final →
  ∃ msg', value (error final) = Some msg'.
Proof.
  intros Herr Hrun.
  destruct (pregel_error_kept E fuel n state final w) as [msg' H]; [by rewrite Herr|done|].
  by exists msg'.
Qed.

Lemma error_is_kept_witness :
  ∃ msg',
    value (error (apply_updates after_miss
                    (parse_reasoning "What time is it?" "FINAL ANSWER: done")))
    = Some msg'.
Proof.
  exact (error_is_kept (demo_env ["FINAL ANSWER: done"]) 1 NReason after_miss
           (apply_updates after_miss
              (parse_reasoning "What time is it?" "FINAL ANSWER: done"))
           one_list "Tool 'foo' not found" eq_refl eq_refl).
Defined.

(** ** The tool input *)

Section Inputs.


End Inputs.

(** ** The search gateway *)

Section Gateway.

Variable E : env.
Variable query : string.
Variable max_length : option nat.

Lemma attempt_events (w : world) :
  match search_attempt E query max_length w with
  | (Ok r, w1) =>
      events w1 = (events w ++ [SearchRequested query; PageFetched (r_url r)])%list
  | (Raise _, w1) => events w1 = (events w ++ [SearchRequested query])%list
  end.
Proof.
  unfold search_attempt, mbind, M_bind, call, raise.
  destruct (search_request E (events w) query) as [[[|top rest]|]|e]; try done.
  unfold try_except, _extract_content, mbind, M_bind, call, mret, M_ret.
  cbn [fst snd].
  match goal with |- context [page_text E ?h ?u] => destruct (page_text E h u) end;
    cbn [r_url log events]; by rewrite <- app_assoc.
Qed.

Lemma added_events {A} (m : M A) (w : world) (evs : list event) :
  events (snd (m w)) = (events w ++ evs)%list → added m w = evs.
Proof. intros H. unfold added. by rewrite H, drop_app_length. Qed.

Lemma search_events (w : world) :
  ∃ k, (1 ≤ k ≤ 3)%nat
    ∧ match fst (search_and_extract E query max_length w) with
      | Ok r =>
          events (snd (search_and_extract E query max_length w))
          = (events w ++ repeat (SearchRequested query) k ++ [PageFetched (r_url r)])%list
      | Raise _ =>
          k = 3%nat
          ∧ events (snd (search_and_extract E query max_length w))
            = (events w ++ repeat (SearchRequested query) 3)%list
      end.
Proof.
  destruct (search_and_extract E query max_length w) as [r w'] eqn:Hs. cbn [fst snd].
  unfold search_and_extract in Hs. cbn [retry] in Hs. unfold try_except in Hs.
  pose proof (attempt_events w) as H1.
  destruct (search_attempt E query max_length w) as [[r1|e1] w1].
  { injection Hs as <- <-. exists 1%nat. split; [lia|exact H1]. }
  pose proof (attempt_events w1) as H2.
  destruct (search_attempt E query max_length w1) as [[r2|e2] w2].
  { injection Hs as <- <-. exists 2%nat. split; [lia|].
    by rewrite H2, H1, <- app_assoc. }
  pose proof (attempt_events w2) as H3. rewrite Hs in H3.
  exists 3%nat. split; [lia|].
  destruct r as [r3|e3]; [|split; [done|]]; by rewrite H3, H2, H1, <- !app_assoc.
Qed.

(** X18.  What one call of the gateway asks of the world: the search
    request, made once, twice or three times, and nothing else while the
    attempts fail.  The call raises only after three requests; when it
    returns a result, the attempt that found it was the last one, and it is
    followed by exactly one page request, for the URL of the result that is
    returned (a page that cannot be read is not requested again). *)
Theorem search_effects (w : world) :
  ∃ k, (1 ≤ k ≤ 3)%nat
    ∧ match fst (search_and_extract E query max_length w) with
      | Ok r =>
          added (search_and_extract E query max_length) w
          = (repeat (SearchRequested query) k ++ [PageFetched (r_url r)])%list
      | Raise _ =>
          k = 3%nat
          ∧ added (search_and_extract E query max_length) w
            = repeat (SearchRequested query) 3
      end.
Proof.
  destruct (search_events w) as (k & Hk & H). exists k. split; [exact Hk|].
  destruct (fst (search_and_extract E query max_length w)) as [r|e].
  - by apply added_events.
  - destruct H as [-> H]. split; [done|]. by apply added_events.
Qed.

(** X19.  The text [_extract_content] returns for a positive [max_length]
    has at most [max_length + 3] characters: a cleaned text that is longer
    is cut to its first [max_length] characters and three dots are added,
    and a shorter one is returned as it is.  With no limit (or with the
    limit zero) nothing is cut. *)
Theorem content_is_bounded (url : string) (n : nat) (w : world) (text : string) :
  (0 < n)%nat →
  fst (_extract_content E url (Some n) w) = Ok text →
  (len text ≤ n + 3)%nat
  ∧ (n < len text → upto n text +:+ "..." = text)%nat
  ∧ ∃ cleaned,
      fst (_extract_content E url None w) = Ok cleaned
      ∧ fst (_extract_content E url (Some 0%nat) w) = Ok cleaned
      ∧ upto n text = upto n cleaned
      ∧ (len cleaned ≤ n → text = cleaned)%nat.
Proof.
  intros Hn. unfold _extract_content, mbind, M_bind, call, mret, M_ret.
  destruct (page_text E (events w) url) as [page|e]; cbn [fst snd]; [|discriminate].
  match goal with |- context [join " " ?l] => generalize (join " " l) end.
  intros cleaned. destruct (Nat.ltb_spec 0 n) as [_|?]; [|lia]. cbn [andb].
  destruct (Nat.ltb_spec n (len cleaned)) as [Hlong|Hshort]; intros [= <-].
  - assert (len (upto n cleaned) = n) as Hlen by (apply len_upto; lia).
    assert (upto n (upto n cleaned +:+ "...") = upto n cleaned) as Hup.
    { rewrite <- Hlen at 1. apply upto_app. }
    split; [rewrite len_app, Hlen; simpl; lia|]. split; [by rewrite Hup|].
    exists cleaned. split; [done|]. split; [done|]. split; [done|]. lia.
  - split; [lia|]. split; [lia|]. exists cleaned. by repeat split.
Qed.

End Gateway.

Lemma content_is_bounded_witness :
  fst (_extract_content reading_env "https://en.wikipedia.org/wiki/Paris" (Some 5%nat)
         empty_world)
  = Ok "Paris..."
  ∧ (len "Paris..." ≤ 5 + 3)%nat.
Proof.
  split; [reflexivity|].
  apply (content_is_bounded reading_env "https://en.wikipedia.org/wiki/Paris" 5
           empty_world "Paris..."); [lia|reflexivity].
Defined.

(** ** Round trips of the tool input *)

Section Characters.

Implicit Types s t : string.







Lemma slice_inside c s d :
  slice 1 (len (String c (s +:+ String d "")) - 1) (String c (s +:+ String d "")) = s.
Proof.
  unfold slice. cbn [skip]. unfold len. cbn [String.length].
  fold (len (s +:+ String d "")). rewrite len_app.
  replace (S (len s + len (String d "")) - 1 - 1)%nat with (len s)
    by (unfold len; cbn [String.length]; lia).
  apply upto_app.
Qed.

End Characters.

(** X20.  [clean_input_text] removes one pair of outer quote characters,
    single or double, and then the surrounding whitespace: a text between
    two single quotes, or between two double quotes, is cleaned to its
    stripped inside, and a text that does not begin with a quote character
    is only stripped.  The quote character alone counts as a quoted empty
    text. *)
Theorem clean_input_quotes (s : string) :
  clean_input_text (squote +:+ s +:+ squote) = strip s
  ∧ clean_input_text (dquote +:+ s +:+ dquote) = strip s
  ∧ (startswith s squote || startswith s dquote = false → clean_input_text s = strip s)
  ∧ clean_input_text squote = ""
  ∧ clean_input_text dquote = "".
Proof.
  assert (∀ q, is_quote q = true →
            clean_input_text (String q "" +:+ s +:+ String q "") = strip s) as Hq.
  { intros q Hquote. unfold clean_input_text.
    rewrite app_cons, app_nil_l.
    assert ((startswith (String q (s +:+ String q "")) squote
             && endswith (String q (s +:+ String q "")) squote)
            || (startswith (String q (s +:+ String q "")) dquote
                && endswith (String q (s +:+ String q "")) dquote) = true) as ->.
    { rewrite <- app_cons.
      unfold is_quote in Hquote. apply orb_true_iff in Hquote as [H|H];
        apply Ascii.eqb_eq in H; subst q.
      - change (String "'" "") with squote.
        rewrite (endswith_app (String "'" s) squote), andb_true_r. unfold startswith.
        rewrite (proj2 (prefix_app squote (String "'" s +:+ squote)));
          [done|by exists (s +:+ squote)].
      - change (String "034" "") with dquote.
        rewrite (endswith_app (String "034" s) dquote), andb_true_r. unfold startswith.
        rewrite (proj2 (prefix_app dquote (String "034" s +:+ dquote)));
          [apply orb_true_r|by exists (s +:+ dquote)]. }
    by rewrite slice_inside. }
  split; [by apply (Hq "'"%char)|]. split; [by apply (Hq "034"%char)|].
  split; [|by split].
  intros [H1 H2]%orb_false_iff. unfold clean_input_text. by rewrite H1, H2.
Qed.


Section Mapping.

Implicit Types s q : string.












End Mapping.



Section Numerals.

Local Open Scope Z_scope.













End Numerals.

(** ** A selection without an INPUT section *)

Section Question.

Local Open Scope Z_scope.




End Question.

(** ** The observation of a web search *)

Section Observation.

Lemma cut_length (n : nat) (cleaned : string) :
  (0 < n)%nat →
  (len (if Nat.ltb 0 n && Nat.ltb n (len cleaned)
        then upto n cleaned +:+ "..." else cleaned) ≤ n + 3)%nat.
Proof.
  intros Hn. destruct (Nat.ltb_spec 0 n) as [_|?]; [|lia]. cbn [andb].
  destruct (Nat.ltb_spec n (len cleaned)) as [Hlong|Hshort]; [|lia].
  rewrite len_app, len_upto by lia. cbn. lia.
Qed.

(** X24.  What [WebSearchTool.execute] reports.  When the search API
    answers each of the three attempts with zero results, the observation
    is the text "Error searching web: No Google search results found for
    query: " followed by the query, after three search requests and no page
    request.  When the first attempt has a result, the observation is
    "Found information from ", the title of the top result, a colon and a
    blank line, and the content: the snippet of the result (or "Content
    extraction failed") when the page cannot be read, and otherwise the
    cleaned page text, of 3003 characters at most. *)
Theorem websearch_outcomes (E : env) (query : string) (w : world) :
  (zero_results E (events w) query →
   zero_results E (events w ++ [SearchRequested query]) query →
   zero_results E ((events w ++ [SearchRequested query]) ++ [SearchRequested query]) query →
   execute E WebSearchTool [("query", PStr query)] w
   = (Ok ("Error searching web: No Google search results found for query: " +:+ query),
      log (SearchRequested query)
        (log (SearchRequested query) (log (SearchRequested query) w))))
  ∧ (∀ top rest,
       search_request E (events w) query = Ok (Some (top :: rest)) →
       ∃ content,
         execute E WebSearchTool [("query", PStr query)] w
         = (Ok ("Found information from " +:+ default "" (i_title top) +:+ ":"
                +:+ nl +:+ nl +:+ content),
            log (PageFetched (default "" (i_link top))) (log (SearchRequested query) w))
         ∧ match page_text E (events w ++ [SearchRequested query])
                   (default "" (i_link top)) with
           | Raise _ => content = default "Content extraction failed" (i_snippet top)
           | Ok _ => (len content ≤ 3003)%nat
           end).
Proof.
  change (execute E WebSearchTool [("query", PStr query)] w)
    with (websearch_execute E (PStr query) w).
  assert (∀ w', zero_results E (events w') query →
            search_attempt E query (Some 3000%nat) w'
            = (Raise (mk_exn "ValueError"
                        ("No Google search results found for query: " +:+ query)),
               log (SearchRequested query) w')) as Hzero.
  { intros w' Hz. unfold search_attempt, mbind, M_bind, call, raise.
    by destruct Hz as [-> | ->]. }
  split.
  - intros H1 H2 H3.
    unfold websearch_execute, search_and_extract. cbn [retry str_val].
    unfold try_except, mbind, M_bind, mret, M_ret.
    rewrite (Hzero w H1), (Hzero (log (SearchRequested query) w) H2).
    by rewrite (Hzero (log (SearchRequested query) (log (SearchRequested query) w)) H3).
  - intros top rest Hs.
    unfold websearch_execute, search_and_extract. cbn [retry str_val].
    unfold try_except at 1 2 3, mbind at 1, M_bind at 1, mret, M_ret.
    unfold search_attempt at 1, mbind at 1, M_bind at 1, call at 1. rewrite Hs.
    cbv beta iota.
    unfold try_except, _extract_content, call, mbind, M_bind, mret, M_ret.
    change (events (log (SearchRequested query) w))
      with (events w ++ [SearchRequested query])%list.
    destruct (page_text E (events w ++ [SearchRequested query]) (default "" (i_link top)))
      as [page|e]; cbv beta iota; cbn [r_title r_content].
    + eexists. split; [reflexivity|]. apply (cut_length 3000). lia.
    + eexists. by split.
Qed.

End Observation.

(** ** The registry as a dictionary *)

Section Registry.

Lemma register_keys (t : Tool) (tools : registry) :
  map fst (register t tools)
  = if bool_decide (name t ∈ map fst tools) then map fst tools
    else (map fst tools ++ [name t])%list.
Proof.
  induction tools as [|[k v] tools IH]; cbn [register map fst].
  - by rewrite bool_decide_eq_false_2 by apply not_elem_of_nil.
  - destruct (String.eqb_spec k (name t)) as [->|Hne]; cbn [map fst].
    + by rewrite bool_decide_eq_true_2 by apply list_elem_of_here.
    + rewrite IH. destruct (decide (name t ∈ map fst tools)) as [Hin|Hout].
      * rewrite !bool_decide_eq_true_2; [done|by apply list_elem_of_further|done].
      * rewrite !bool_decide_eq_false_2; [done| |done].
        intros [?|?]%elem_of_cons; congruence.
Qed.

Lemma register_keyed (t : Tool) (tools : registry) :
  Forall (λ kt, fst kt = name (snd kt)) tools →
  Forall (λ kt, fst kt = name (snd kt)) (register t tools).
Proof.
  induction tools as [|[k v] tools IH]; cbn [register]; intros H.
  - by constructor.
  - apply Forall_cons in H as [Hk H].
    destruct (String.eqb_spec k (name t)) as [->|Hne]; constructor; auto.
Qed.

(** X25.  [register] keeps the registry a dictionary keyed by tool names:
    when no name occurs twice and every tool is stored under its own name,
    this also holds after [register(tool)]; the registry grows by one
    entry, added at the end, when the name is new, and keeps its names and
    their order when the name was there already.  [list_tools] lists the
    names in that order, and [get_tools_description] has one line
    ["- name: description"] for each entry of [list_tools]. *)
Theorem register_keeps_keys (t : Tool) (tools : registry) :
  well_keyed tools →
  well_keyed (register t tools)
  ∧ (name t ∈ map fst tools → map fst (register t tools) = map fst tools)
  ∧ (name t ∉ map fst tools →
     map fst (register t tools) = (map fst tools ++ [name t])%list)
  ∧ map fst (list_tools (register t tools)) = map fst (register t tools)
  ∧ get_tools_description (register t tools)
    = join nl (map (λ nd, "- " +:+ fst nd +:+ ": " +:+ snd nd)
                 (list_tools (register t tools))).
Proof.
  intros [Hdup Hkeyed].
  pose proof (register_keyed t tools Hkeyed) as Hkeyed'.
  pose proof (register_keys t tools) as Hkeys.
  split; [split; [|done]|split; [|split; [|split]]].
  - rewrite Hkeys. destruct (decide (name t ∈ map fst tools)) as [Hin|Hout].
    + by rewrite bool_decide_eq_true_2.
    + rewrite bool_decide_eq_false_2 by done. apply NoDup_app.
      split; [done|]. split; [|apply NoDup_singleton].
      intros x Hx ->%list_elem_of_singleton. done.
  - intros Hin. by rewrite Hkeys, bool_decide_eq_true_2.
  - intros Hout. by rewrite Hkeys, bool_decide_eq_false_2.
  - unfold list_tools. rewrite map_map. cbn [fst].
    clear Hkeys. revert Hkeyed'. generalize (register t tools). intros r Hr.
    induction Hr as [|[k v] r Hk _ IH]; [done|]. simpl in *.
    by rewrite IH, Hk.
  - unfold get_tools_description, list_tools. by rewrite map_map.
Qed.

Lemma register_keeps_keys_witness :
  well_keyed (register CalculatorTool [])
  ∧ map fst (register CalculatorTool []) = ["calculator"].
Proof.
  assert (well_keyed []) as H by (split; constructor).
  destruct (register_keeps_keys CalculatorTool [] H) as (H1 & _ & H2 & _).
  split; [exact H1|]. apply H2. apply not_elem_of_nil.
Defined.

End Registry.
